(** * The client-information form: validation, attachment and submission

    A shallow embedding of [components/attractive-form.tsx] (the
    [AttractiveForm] React component) and of the page that mounts it
    ([app/form/form-page-content.tsx]).

    - JavaScript strings are sequences of UTF-16 code units ([jsstring]).
    - The React state of the component is the record [ComponentState]; the
      values held by react-hook-form are its [values] field.
    - Everything the component does to the outside (toasts, the HTTP request,
      timers, the reset of the file input) is appended to an effect log.
    - [onSubmit] is written in a small state-and-exception monad so that
      [try]/[catch]/[finally] read as in the source.
    - Behaviour that belongs to the JavaScript engine or to the zod library
      and is not fixed by the source (the e-mail regular expression, the text
      of engine error messages, the printing of floating-point numbers) is
      collected in the record [Platform]; every theorem holds for every
      platform.
    - [form.handleSubmit] belongs to react-hook-form: it calls the handler
      only with values the resolver of the schema accepts.
    - The network is described by what the [fetch] promise settles to and
      by the time it takes to settle, in milliseconds.
    - [console.log] and [console.error] calls are diagnostics and are left
      out. *)

From Stdlib Require Import List Bool Arith NArith Lia String Ascii.
From Stdlib Require Decimal.
Import ListNotations.

(** * Part I: the model *)

(** ** JavaScript strings *)

Module JsString.

Definition code_unit := N.

Definition jsstring := list code_unit.

Fixpoint bytes_of (s : string) : list N :=
  match s with
  | EmptyString => []
  | String a s' => N_of_ascii a :: bytes_of s'
  end.

(** The source file is UTF-8; a string literal of the source denotes the
    UTF-16 code units of the decoded text. *)
Fixpoint utf16_of_utf8 (bs : list N) : jsstring :=
  match bs with
  | [] => []
  | b :: rest =>
      if (b <? 128)%N then b :: utf16_of_utf8 rest
      else if (b <? 224)%N then
        match rest with
        | c1 :: rest' =>
            ((b mod 32) * 64 + c1 mod 64)%N :: utf16_of_utf8 rest'
        | [] => [b]
        end
      else if (b <? 240)%N then
        match rest with
        | c1 :: c2 :: rest' =>
            ((b mod 16) * 4096 + (c1 mod 64) * 64 + c2 mod 64)%N
              :: utf16_of_utf8 rest'
        | _ => b :: utf16_of_utf8 rest
        end
      else
        match rest with
        | c1 :: c2 :: c3 :: rest' =>
            let cp := ((b mod 8) * 262144 + (c1 mod 64) * 4096
                       + (c2 mod 64) * 64 + c3 mod 64)%N in
            let v := (cp - 65536)%N in
            (55296 + v / 1024)%N :: (56320 + v mod 1024)%N
              :: utf16_of_utf8 rest'
        | _ => b :: utf16_of_utf8 rest
        end
  end.

Definition js (s : string) : jsstring := utf16_of_utf8 (bytes_of s).

(** Writing convention for literals that contain double quotes: in
    [jsq s] every apostrophe of [s] stands for a double quote. *)
Definition jsq (s : string) : jsstring :=
  map (fun c => if (c =? 39)%N then 34%N else c) (js s).

Fixpoint eqb (a b : jsstring) : bool :=
  match a, b with
  | [], [] => true
  | x :: a', y :: b' => (x =? y)%N && eqb a' b'
  | _, _ => false
  end.

(** [s.length] *)
Definition length (s : jsstring) : nat := List.length s.

(** A string is truthy when it is not empty. *)
Definition truthy (s : jsstring) : bool :=
  match s with [] => false | _ :: _ => true end.

(** [a || b] on strings. *)
Definition or_else (a b : jsstring) : jsstring :=
  if truthy a then a else b.

Fixpoint starts_with (p s : jsstring) : bool :=
  match p, s with
  | [], _ => true
  | x :: p', y :: s' => (x =? y)%N && starts_with p' s'
  | _ :: _, [] => false
  end.

(** [s.includes(needle)] *)
Fixpoint includes (s needle : jsstring) : bool :=
  match s with
  | [] => starts_with needle []
  | _ :: s' => starts_with needle s || includes s' needle
  end.

Fixpoint digits_of_uint (d : Decimal.uint) : jsstring :=
  match d with
  | Decimal.Nil => []
  | Decimal.D0 d' => 48%N :: digits_of_uint d'
  | Decimal.D1 d' => 49%N :: digits_of_uint d'
  | Decimal.D2 d' => 50%N :: digits_of_uint d'
  | Decimal.D3 d' => 51%N :: digits_of_uint d'
  | Decimal.D4 d' => 52%N :: digits_of_uint d'
  | Decimal.D5 d' => 53%N :: digits_of_uint d'
  | Decimal.D6 d' => 54%N :: digits_of_uint d'
  | Decimal.D7 d' => 55%N :: digits_of_uint d'
  | Decimal.D8 d' => 56%N :: digits_of_uint d'
  | Decimal.D9 d' => 57%N :: digits_of_uint d'
  end.

(** The decimal text of a non-negative integer, as a template literal
    prints it. *)
Definition decimal (n : N) : jsstring := digits_of_uint (N.to_uint n).

Fixpoint join (sep : jsstring) (parts : list jsstring) : jsstring :=
  match parts with
  | [] => []
  | [p] => p
  | p :: rest => p ++ sep ++ join sep rest
  end.

(** [s.replace(/^"|"$/g, '')]: one double quote is removed at the start
    when there is one, then one at the end of what is left. *)
Definition drop_leading_quote (s : jsstring) : jsstring :=
  match s with
  | c :: s' => if (c =? 34)%N then s' else s
  | [] => []
  end.

Fixpoint drop_trailing_quote (s : jsstring) : jsstring :=
  match s with
  | [] => []
  | [c] => if (c =? 34)%N then [] else [c]
  | c :: s' => c :: drop_trailing_quote s'
  end.

Definition strip_wrapping_quotes (s : jsstring) : jsstring :=
  drop_trailing_quote (drop_leading_quote s).

End JsString.

Import JsString.

(** ** What the source leaves to the engine and to zod *)

Record Platform := {
  (** zod's [z.string().email()] check. *)
  email_format : jsstring -> bool;
  (** [process.env.NEXT_PUBLIC_API_URL] *)
  NEXT_PUBLIC_API_URL : option jsstring;
  (** The message of the [AbortError] raised by an aborted [fetch]. *)
  abort_message : jsstring;
  (** The message of the [SyntaxError] of [JSON.parse] on a given text. *)
  syntax_error_message : jsstring -> jsstring;
  (** The message of the [TypeError] raised when an object cannot be
      converted to a primitive value. *)
  type_error_message : jsstring;
  (** Numbers are IEEE doubles: whether the number a JSON literal denotes is
      non-zero, whether it is finite, and how it prints. *)
  number_truthy : jsstring -> bool;
  number_finite : jsstring -> bool;
  number_toString : jsstring -> jsstring
}.

(** ** JSON values, [JSON.parse] and [JSON.stringify] *)

Module Json.

#[local] Unset Elimination Schemes.

Inductive json :=
| JNull
| JBool (b : bool)
| JNumber (literal : jsstring)
| JString (s : jsstring)
| JArray (items : list json)
| JObject (properties : list (jsstring * json)).

#[local] Set Elimination Schemes.

(** *** Tokens *)

Inductive token :=
| TLBrace | TRBrace | TLBracket | TRBracket | TColon | TComma
| TString (s : jsstring)
| TNumber (literal : jsstring)
| TTrue | TFalse | TNull.

Definition is_ws (c : N) : bool :=
  ((c =? 32) || (c =? 9) || (c =? 10) || (c =? 13))%N.
Definition is_digit (c : N) : bool := ((48 <=? c) && (c <=? 57))%N.
Definition is_digit19 (c : N) : bool := ((49 <=? c) && (c <=? 57))%N.
Definition is_lower (c : N) : bool := ((97 <=? c) && (c <=? 122))%N.

(** The characters a number literal is made of: digits, [+ - . e E]. *)
Definition is_number_char (c : N) : bool :=
  (is_digit c || (c =? 43) || (c =? 45) || (c =? 46) || (c =? 101)
   || (c =? 69))%N.

Definition hex_value (c : N) : option N :=
  if is_digit c then Some (c - 48)%N
  else if ((97 <=? c) && (c <=? 102))%N then Some (c - 87)%N
  else if ((65 <=? c) && (c <=? 70))%N then Some (c - 55)%N
  else None.

Fixpoint drop_digits (s : jsstring) : jsstring :=
  match s with
  | c :: s' => if is_digit c then drop_digits s' else s
  | [] => []
  end.

(** exponent part: empty, or [e|E] with an optional sign and digits *)
Definition valid_exp (s : jsstring) : bool :=
  match s with
  | [] => true
  | e :: s' =>
      if ((e =? 101) || (e =? 69))%N then
        let s'' := match s' with
                   | sg :: r => if ((sg =? 43) || (sg =? 45))%N then r else s'
                   | [] => s'
                   end in
        match s'' with
        | d :: _ => is_digit d && negb (truthy (drop_digits s''))
        | [] => false
        end
      else false
  end.

(** optional fraction, then the exponent part *)
Definition valid_frac (s : jsstring) : bool :=
  match s with
  | c :: s' =>
      if (c =? 46)%N then
        match s' with
        | d :: _ => is_digit d && valid_exp (drop_digits s')
        | [] => false
        end
      else valid_exp s
  | [] => true
  end.

(** The JSON number grammar: an optional minus sign; then a single zero, or
    a non-zero digit followed by digits; then an optional fraction (a dot and
    at least one digit); then an optional exponent. *)
Definition valid_number (s : jsstring) : bool :=
  let s1 := match s with
            | c :: r => if (c =? 45)%N then r else s
            | [] => s
            end in
  match s1 with
  | d :: r =>
      if (d =? 48)%N then valid_frac r
      else if is_digit19 d then valid_frac (drop_digits r)
      else false
  | [] => false
  end.

Inductive lex_mode :=
| LDefault
| LString (rev_acc : jsstring)
| LEscape (rev_acc : jsstring)
| LUnicode (rev_acc : jsstring) (digits : list N)
| LNumber (rev_literal : jsstring)
| LWord (rev_word : jsstring).

(** One character read between tokens. *)
Definition lex_start (c : N) : option (option token * lex_mode) :=
  if is_ws c then Some (None, LDefault)
  else if (c =? 123)%N then Some (Some TLBrace, LDefault)
  else if (c =? 125)%N then Some (Some TRBrace, LDefault)
  else if (c =? 91)%N then Some (Some TLBracket, LDefault)
  else if (c =? 93)%N then Some (Some TRBracket, LDefault)
  else if (c =? 58)%N then Some (Some TColon, LDefault)
  else if (c =? 44)%N then Some (Some TComma, LDefault)
  else if (c =? 34)%N then Some (None, LString [])
  else if ((c =? 45) || is_digit c)%N then Some (None, LNumber [c])
  else if is_lower c then Some (None, LWord [c])
  else None.

Definition finish_number (rev_literal : jsstring) : option token :=
  let l := rev rev_literal in
  if valid_number l then Some (TNumber l) else None.

Definition finish_word (rev_word : jsstring) : option token :=
  let w := rev rev_word in
  if eqb w (js "true") then Some TTrue
  else if eqb w (js "false") then Some TFalse
  else if eqb w (js "null") then Some TNull
  else None.

(** The single-character escapes: quote, backslash, slash, b, f, n, r, t. *)
Definition simple_escape (c : N) : option N :=
  if (c =? 34)%N then Some 34%N
  else if (c =? 92)%N then Some 92%N
  else if (c =? 47)%N then Some 47%N
  else if (c =? 98)%N then Some 8%N
  else if (c =? 102)%N then Some 12%N
  else if (c =? 110)%N then Some 10%N
  else if (c =? 114)%N then Some 13%N
  else if (c =? 116)%N then Some 9%N
  else None.

Definition push_token (t : option token) (acc : list token) : list token :=
  match t with Some t' => t' :: acc | None => acc end.

Fixpoint lex (mode : lex_mode) (acc : list token) (s : jsstring)
  : option (list token) :=
  match s with
  | [] =>
      match mode with
      | LDefault => Some (rev acc)
      | LNumber l =>
          match finish_number l with
          | Some t => Some (rev (t :: acc))
          | None => None
          end
      | LWord w =>
          match finish_word w with
          | Some t => Some (rev (t :: acc))
          | None => None
          end
      | _ => None
      end
  | c :: s' =>
      match mode with
      | LDefault =>
          match lex_start c with
          | Some (t, m) => lex m (push_token t acc) s'
          | None => None
          end
      | LString a =>
          if (c =? 34)%N then lex LDefault (TString (rev a) :: acc) s'
          else if (c =? 92)%N then lex (LEscape a) acc s'
          else if (c <? 32)%N then None
          else lex (LString (c :: a)) acc s'
      | LEscape a =>
          if (c =? 117)%N then lex (LUnicode a []) acc s'
          else match simple_escape c with
               | Some x => lex (LString (x :: a)) acc s'
               | None => None
               end
      | LUnicode a ds =>
          match hex_value c with
          | None => None
          | Some d =>
              match ds with
              | [d1; d2; d3] =>
                  lex (LString ((d1 * 4096 + d2 * 256 + d3 * 16 + d)%N :: a))
                      acc s'
              | _ => lex (LUnicode a (ds ++ [d])) acc s'
              end
          end
      | LNumber l =>
          if is_number_char c then lex (LNumber (c :: l)) acc s'
          else match finish_number l with
               | Some t =>
                   match lex_start c with
                   | Some (t', m) => lex m (push_token t' (t :: acc)) s'
                   | None => None
                   end
               | None => None
               end
      | LWord w =>
          if is_lower c then lex (LWord (c :: w)) acc s'
          else match finish_word w with
               | Some t =>
                   match lex_start c with
                   | Some (t', m) => lex m (push_token t' (t :: acc)) s'
                   | None => None
                   end
               | None => None
               end
      end
  end.

Definition tokens (s : jsstring) : option (list token) := lex LDefault [] s.

(** *** Objects

    [JSON.parse] creates the properties of an object in source order; a
    repeated key overwrites the value and keeps the place of the first
    occurrence.  The own keys of an object are enumerated with the array
    indices first, in ascending order, then the other keys in creation
    order. *)

Fixpoint define_property (k : jsstring) (v : json)
  (props : list (jsstring * json)) : list (jsstring * json) :=
  match props with
  | [] => [(k, v)]
  | (k', v') :: rest =>
      if eqb k k' then (k, v) :: rest
      else (k', v') :: define_property k v rest
  end.

Definition in_creation_order (source : list (jsstring * json))
  : list (jsstring * json) :=
  fold_left (fun acc kv => define_property (fst kv) (snd kv) acc) source [].

Definition digits_value (s : jsstring) : N :=
  fold_left (fun acc c => (acc * 10 + (c - 48))%N) s 0%N.

(** An array index is the canonical decimal text of an integer below
    [2^32 - 1]. *)
Definition array_index (k : jsstring) : option N :=
  match k with
  | [] => None
  | d :: rest =>
      if forallb is_digit k && (negb (d =? 48)%N || negb (truthy rest)) then
        let n := digits_value k in
        if (n <=? 4294967294)%N then Some n else None
      else None
  end.

Fixpoint insert_indexed (i : N) (kv : jsstring * json)
  (sorted : list (N * (jsstring * json))) : list (N * (jsstring * json)) :=
  match sorted with
  | [] => [(i, kv)]
  | (j, kv') :: rest =>
      if (i <? j)%N then (i, kv) :: sorted
      else (j, kv') :: insert_indexed i kv rest
  end.

Fixpoint split_indexed (props : list (jsstring * json))
  : list (N * (jsstring * json)) * list (jsstring * json) :=
  match props with
  | [] => ([], [])
  | kv :: rest =>
      let (indexed, named) := split_indexed rest in
      match array_index (fst kv) with
      | Some i => (insert_indexed i kv indexed, named)
      | None => (indexed, kv :: named)
      end
  end.

Definition own_property_order (props : list (jsstring * json))
  : list (jsstring * json) :=
  let (indexed, named) := split_indexed props in
  map snd indexed ++ named.

Definition make_object (source : list (jsstring * json)) : json :=
  JObject (own_property_order (in_creation_order source)).

(** *** The parser: a pushdown automaton over the tokens *)

Inductive frame :=
| FArray (rev_items : list json)
| FObject (rev_props : list (jsstring * json))
| FValueOf (rev_props : list (jsstring * json)) (key : jsstring).

Inductive expect :=
| EValue
| EValueOrClose
| EKeyOrClose
| EKey
| EColon
| ECommaOrClose
| EEnd (v : json).

(** A value has been completed under the given stack. *)
Definition supply (v : json) (stack : list frame)
  : option (expect * list frame) :=
  match stack with
  | [] => Some (EEnd v, [])
  | FArray items :: rest => Some (ECommaOrClose, FArray (v :: items) :: rest)
  | FValueOf props k :: rest =>
      Some (ECommaOrClose, FObject ((k, v) :: props) :: rest)
  | FObject _ :: _ => None
  end.

Definition parse_step (e : expect) (stack : list frame) (t : token)
  : option (expect * list frame) :=
  match e with
  | EValue | EValueOrClose =>
      match t with
      | TLBrace => Some (EKeyOrClose, FObject [] :: stack)
      | TLBracket => Some (EValueOrClose, FArray [] :: stack)
      | TString s => supply (JString s) stack
      | TNumber l => supply (JNumber l) stack
      | TTrue => supply (JBool true) stack
      | TFalse => supply (JBool false) stack
      | TNull => supply JNull stack
      | TRBracket =>
          match e, stack with
          | EValueOrClose, FArray items :: rest =>
              supply (JArray (rev items)) rest
          | _, _ => None
          end
      | _ => None
      end
  | EKeyOrClose | EKey =>
      match t with
      | TString k =>
          match stack with
          | FObject props :: rest => Some (EColon, FValueOf props k :: rest)
          | _ => None
          end
      | TRBrace =>
          match e, stack with
          | EKeyOrClose, FObject props :: rest =>
              supply (make_object (rev props)) rest
          | _, _ => None
          end
      | _ => None
      end
  | EColon =>
      match t with
      | TColon => Some (EValue, stack)
      | _ => None
      end
  | ECommaOrClose =>
      match t, stack with
      | TComma, FArray _ :: _ => Some (EValue, stack)
      | TComma, FObject _ :: _ => Some (EKey, stack)
      | TRBracket, FArray items :: rest => supply (JArray (rev items)) rest
      | TRBrace, FObject props :: rest =>
          supply (make_object (rev props)) rest
      | _, _ => None
      end
  | EEnd _ => None
  end.

Fixpoint parse_tokens (e : expect) (stack : list frame) (ts : list token)
  : option json :=
  match ts with
  | [] =>
      match e, stack with
      | EEnd v, [] => Some v
      | _, _ => None
      end
  | t :: ts' =>
      match parse_step e stack t with
      | Some (e', stack') => parse_tokens e' stack' ts'
      | None => None
      end
  end.

(** [JSON.parse(text)]; [None] stands for the [SyntaxError]. *)
Definition parse (text : jsstring) : option json :=
  match tokens text with
  | Some ts => parse_tokens EValue [] ts
  | None => None
  end.

(** *** Reading values *)

Fixpoint lookup (k : jsstring) (props : list (jsstring * json))
  : option json :=
  match props with
  | [] => None
  | (k', v) :: rest => if eqb k k' then Some v else lookup k rest
  end.

(** [v.k] for a value other than [null], for a name [k] that no built-in
    prototype defines (as [detail] and [message]); [None] is [undefined]. *)
Definition property (v : json) (k : jsstring) : option json :=
  match v with
  | JObject props => lookup k props
  | _ => None
  end.

Section WithPlatform.

Variable P : Platform.

Definition truthy_value (v : json) : bool :=
  match v with
  | JNull => false
  | JBool b => b
  | JNumber l => number_truthy P l
  | JString s => truthy s
  | JArray _ | JObject _ => true
  end.

Definition hex_digit (n : N) : N :=
  if (n <? 10)%N then (48 + n)%N else (87 + n)%N.

Definition unicode_escape (c : N) : jsstring :=
  [92; 117; hex_digit (c / 4096 mod 16); hex_digit (c / 256 mod 16);
   hex_digit (c / 16 mod 16); hex_digit (c mod 16)]%N.

Definition is_high_surrogate (c : N) : bool :=
  ((55296 <=? c) && (c <=? 56319))%N.
Definition is_low_surrogate (c : N) : bool :=
  ((56320 <=? c) && (c <=? 57343))%N.

Definition quote_unit (c : N) : jsstring :=
  if (c =? 8)%N then [92; 98]%N
  else if (c =? 9)%N then [92; 116]%N
  else if (c =? 10)%N then [92; 110]%N
  else if (c =? 12)%N then [92; 102]%N
  else if (c =? 13)%N then [92; 114]%N
  else if (c =? 34)%N then [92; 34]%N
  else if (c =? 92)%N then [92; 92]%N
  else if (c <? 32)%N then unicode_escape c
  else if is_high_surrogate c || is_low_surrogate c then unicode_escape c
  else [c].

(** The characters of a quoted JSON string; a surrogate pair is kept, a
    lone surrogate is escaped. *)
Fixpoint quote_units (s : jsstring) : jsstring :=
  match s with
  | [] => []
  | c :: rest =>
      match rest with
      | d :: rest' =>
          if is_high_surrogate c && is_low_surrogate d
          then c :: d :: quote_units rest'
          else quote_unit c ++ quote_units rest
      | [] => quote_unit c
      end
  end.

Definition quote (s : jsstring) : jsstring :=
  [34%N] ++ quote_units s ++ [34%N].

(** [JSON.stringify(v)] *)
Fixpoint stringify (v : json) : jsstring :=
  match v with
  | JNull => js "null"
  | JBool true => js "true"
  | JBool false => js "false"
  | JNumber l => if number_finite P l then number_toString P l else js "null"
  | JString s => quote s
  | JArray items => js "[" ++ join (js ",") (map stringify items) ++ js "]"
  | JObject props =>
      js "{"
      ++ join (js ",")
           (map (fun kv => quote (fst kv) ++ js ":" ++ stringify (snd kv))
                props)
      ++ js "}"
  end.

(** [String(v)], the conversion the [Error] constructor applies to its
    argument; [None] stands for the [TypeError] of an object whose own
    [toString] property is not callable.  Inside an array, [null] prints as
    the empty string. *)
Fixpoint to_string (v : json) : option jsstring :=
  match v with
  | JNull => Some (js "null")
  | JBool true => Some (js "true")
  | JBool false => Some (js "false")
  | JNumber l => Some (number_toString P l)
  | JString s => Some s
  | JArray items =>
      option_map (join (js ","))
        ((fix elements (l : list json) : option (list jsstring) :=
            match l with
            | [] => Some []
            | x :: rest =>
                match match x with
                      | JNull => Some []
                      | _ => to_string x
                      end with
                | Some a =>
                    match elements rest with
                    | Some b => Some (a :: b)
                    | None => None
                    end
                | None => None
                end
            end) items)
  | JObject props =>
      match lookup (js "toString") props with
      | Some _ => None
      | None => Some (js "[object Object]")
      end
  end.

End WithPlatform.

End Json.

Import Json.

(** ** The data of the component *)

(** [FormData], the type inferred from [formSchema]. *)
Record FormData := {
  firstName : jsstring;
  lastName : jsstring;
  email : jsstring;
  phone : jsstring;
  address : jsstring
}.

Inductive Field := FirstName | LastName | Email | Phone | Address.

(** What the component reads of a browser [File]. *)
Record File := {
  file_name : jsstring;
  file_size : N;
  file_type : jsstring
}.

(** [AttractiveFormProps]: every property is optional. *)
Record AttractiveFormProps := {
  prop_clientEmail : option jsstring;
  prop_token : option jsstring;
  prop_missingFields : option (list jsstring)
}.

(** The properties after the defaults of the parameter list
    [{ clientEmail = '', token = '', missingFields = [] }]. *)
Record Props := {
  clientEmail : jsstring;
  token : jsstring;
  missingFields : list jsstring
}.

Definition default_to {A : Type} (d : A) (o : option A) : A :=
  match o with Some a => a | None => d end.

Definition destructure (p : AttractiveFormProps) : Props :=
  {| clientEmail := default_to [] (prop_clientEmail p);
     token := default_to [] (prop_token p);
     missingFields := default_to [] (prop_missingFields p) |}.

(** [FormPageContent]: the properties come from the query string;
    [searchParams.get] yields [null] for a missing parameter. *)
Definition FormPageContent (email_param token_param : option jsstring)
  : AttractiveFormProps :=
  {| prop_clientEmail := Some (or_else (default_to [] email_param) []);
     prop_token := Some (or_else (default_to [] token_param) []);
     prop_missingFields :=
       Some [js "firstName"; js "lastName"; js "phone"; js "address"] |}.

(** The [useState] cells and the values held by [useForm]. *)
Record ComponentState := {
  isSubmitting : bool;
  selectedFile : option File;
  isEmailPreFilled : bool;
  isTokenValid : option bool;
  isClient : bool;
  values : FormData
}.

Definition defaultValues : FormData :=
  {| firstName := []; lastName := []; email := []; phone := [];
     address := [] |}.

Definition initial_state : ComponentState :=
  {| isSubmitting := false;
     selectedFile := None;
     isEmailPreFilled := false;
     isTokenValid := None;
     isClient := false;
     values := defaultValues |}.

Definition setIsSubmitting (b : bool) (s : ComponentState) : ComponentState :=
  {| isSubmitting := b; selectedFile := selectedFile s;
     isEmailPreFilled := isEmailPreFilled s; isTokenValid := isTokenValid s;
     isClient := isClient s; values := values s |}.

Definition setSelectedFile (f : option File) (s : ComponentState)
  : ComponentState :=
  {| isSubmitting := isSubmitting s; selectedFile := f;
     isEmailPreFilled := isEmailPreFilled s; isTokenValid := isTokenValid s;
     isClient := isClient s; values := values s |}.

Definition setIsEmailPreFilled (b : bool) (s : ComponentState)
  : ComponentState :=
  {| isSubmitting := isSubmitting s; selectedFile := selectedFile s;
     isEmailPreFilled := b; isTokenValid := isTokenValid s;
     isClient := isClient s; values := values s |}.

Definition setIsTokenValid (v : option bool) (s : ComponentState)
  : ComponentState :=
  {| isSubmitting := isSubmitting s; selectedFile := selectedFile s;
     isEmailPreFilled := isEmailPreFilled s; isTokenValid := v;
     isClient := isClient s; values := values s |}.

Definition setIsClient (b : bool) (s : ComponentState) : ComponentState :=
  {| isSubmitting := isSubmitting s; selectedFile := selectedFile s;
     isEmailPreFilled := isEmailPreFilled s; isTokenValid := isTokenValid s;
     isClient := b; values := values s |}.

(** [form.reset(v)] *)
Definition form_reset (v : FormData) (s : ComponentState) : ComponentState :=
  {| isSubmitting := isSubmitting s; selectedFile := selectedFile s;
     isEmailPreFilled := isEmailPreFilled s; isTokenValid := isTokenValid s;
     isClient := isClient s; values := v |}.

Definition set_field (f : Field) (v : jsstring) (d : FormData) : FormData :=
  match f with
  | FirstName => {| firstName := v; lastName := lastName d; email := email d;
                    phone := phone d; address := address d |}
  | LastName => {| firstName := firstName d; lastName := v; email := email d;
                   phone := phone d; address := address d |}
  | Email => {| firstName := firstName d; lastName := lastName d; email := v;
                phone := phone d; address := address d |}
  | Phone => {| firstName := firstName d; lastName := lastName d;
                email := email d; phone := v; address := address d |}
  | Address => {| firstName := firstName d; lastName := lastName d;
                  email := email d; phone := phone d; address := v |}
  end.

(** [form.setValue(f, v)], also what a field's [onChange] does. *)
Definition form_setValue (f : Field) (v : jsstring) (s : ComponentState)
  : ComponentState :=
  form_reset (set_field f v (values s)) s.

(** ** Effects on the outside *)

Inductive ToastKind := Loading | Success | Failure | Info.

(** A call of [toast.loading], [toast.success], [toast.error] or
    [toast.info]; [updates_loading] says that the call carries the [id] of
    the loading toast of this submission. *)
Record Toast := {
  kind : ToastKind;
  updates_loading : bool;
  title : jsstring;
  description : option jsstring;
  duration : option N
}.

Inductive TimerAction := AbortController | GoToSuccess.

Inductive FormValue := Text (s : jsstring) | Blob (f : File).

Inductive Effect :=
| ShowToast (t : Toast)
| HttpPost (endpoint : jsstring) (body : list (jsstring * FormValue))
| SetTimeout (action : TimerAction) (ms : N)
| ClearTimeout (action : TimerAction)
| RequestAborted
| ResetFileInput
| FieldErrors (errors : list (Field * jsstring)).

Definition is_post (e : Effect) : bool :=
  match e with HttpPost _ _ => true | _ => false end.

Definition is_toast (e : Effect) : bool :=
  match e with ShowToast _ => true | _ => false end.

(** The HTTP requests among the effects of a run. *)
Definition posts (log : list Effect) : list Effect := filter is_post log.

(** The notifications among the effects of a run. *)
Definition toasts (log : list Effect) : list Effect := filter is_toast log.

(** ** Exceptions, the network *)

(** A thrown value: an instance of [Error] with its [name] and [message],
    or anything else. *)
Inductive Thrown :=
| ErrorObject (name message : jsstring)
| NotAnError.

Inductive Body :=
| Readable (text : jsstring)
| Unreadable (e : Thrown).

Record Response := {
  status : N;
  body : Body
}.

(** [response.ok] *)
Definition ok (r : Response) : bool :=
  ((200 <=? status r) && (status r <=? 299))%N.

Inductive Settlement :=
| Resolves (r : Response)
| Rejects (e : Thrown).

(** What the network does with the request: after [latency] milliseconds
    the [fetch] promise would settle as [settlement] says.  When the latency
    is exactly the deadline, [timer_first] says which of the two events the
    event loop runs first. *)
Record Network := {
  latency : N;
  timer_first : bool;
  settlement : Settlement
}.

(** ** A monad for handlers: state, effect log, exceptions *)

Inductive Completion (A : Type) :=
| Normal (a : A)
| Throw (e : Thrown).

Arguments Normal {A} a.
Arguments Throw {A} e.

Definition M (A : Type) : Type :=
  ComponentState -> Completion A * ComponentState * list Effect.

Definition ret {A : Type} (a : A) : M A := fun s => (Normal a, s, []).

Definition bind {A B : Type} (m : M A) (k : A -> M B) : M B :=
  fun s =>
    match m s with
    | (Normal a, s', log) =>
        match k a s' with
        | (c, s'', log') => (c, s'', log ++ log')
        end
    | (Throw e, s', log) => (Throw e, s', log)
    end.

Definition throw {A : Type} (e : Thrown) : M A := fun s => (Throw e, s, []).

Definition emit (e : Effect) : M unit := fun s => (Normal tt, s, [e]).

Definition update (f : ComponentState -> ComponentState) : M unit :=
  fun s => (Normal tt, f s, []).

Definition read : M ComponentState := fun s => (Normal s, s, []).

(** [try { body } catch (e) { handler e }] *)
Definition try_catch {A : Type} (body : M A) (handler : Thrown -> M A) : M A :=
  fun s =>
    match body s with
    | (Normal a, s', log) => (Normal a, s', log)
    | (Throw e, s', log) =>
        match handler e s' with
        | (c, s'', log') => (c, s'', log ++ log')
        end
    end.

(** [try { body } finally { cleanup }] *)
Definition try_finally {A : Type} (body : M A) (cleanup : M unit) : M A :=
  fun s =>
    match body s with
    | (c, s', log) =>
        match cleanup s' with
        | (Normal _, s'', log') => (c, s'', log ++ log')
        | (Throw e, s'', log') => (Throw e, s'', log ++ log')
        end
    end.

Declare Scope handler_scope.
Delimit Scope handler_scope with handler.
Notation "x <- m ;; k" := (bind m (fun x => k))
  (at level 61, m at next level, right associativity) : handler_scope.
Notation "m ;; k" := (bind m (fun _ => k))
  (at level 61, right associativity) : handler_scope.
Open Scope handler_scope.

(** The state and the effects of a handler run from a state. *)
Definition state_after {A : Type} (m : M A) (s : ComponentState)
  : ComponentState := snd (fst (m s)).
Definition effects_of {A : Type} (m : M A) (s : ComponentState)
  : list Effect := snd (m s).
Definition completion_of {A : Type} (m : M A) (s : ComponentState)
  : Completion A := fst (fst (m s)).

(** ** The validation schema *)

Section Component.

Variable P : Platform.

(** [z.string().min(n, { message })]: an issue when [length < n]. *)
Definition min_length (n : nat) (f : Field) (message : jsstring)
  (v : jsstring) : list (Field * jsstring) :=
  if length v <? n then [(f, message)] else [].

(** [z.string().email({ message })] *)
Definition email_check (f : Field) (message : jsstring) (v : jsstring)
  : list (Field * jsstring) :=
  if email_format P v then [] else [(f, message)].

(** The issues [formSchema] reports on a record, field by field. *)
Definition formSchema (d : FormData) : list (Field * jsstring) :=
  min_length 2 FirstName
    (js "Der Vorname muss mindestens 2 Zeichen lang sein.") (firstName d)
  ++ min_length 2 LastName
       (js "Der Nachname muss mindestens 2 Zeichen lang sein.") (lastName d)
  ++ email_check Email
       (js "Bitte geben Sie eine gültige E-Mail-Adresse ein.") (email d)
  ++ min_length 10 Phone
       (js "Die Telefonnummer muss mindestens 10 Ziffern haben.") (phone d)
  ++ min_length 5 Address
       (js "Die Adresse muss mindestens 5 Zeichen lang sein.") (address d).

(** The record passes when the schema reports no issue. *)
Definition accepts (d : FormData) : bool :=
  match formSchema d with [] => true | _ :: _ => false end.

(** ** The handlers of [AttractiveForm] *)

Variable props : Props.

Definition toast_error (t : jsstring) (d : jsstring) (ms : N) : M unit :=
  emit (ShowToast {| kind := Failure; updates_loading := false; title := t;
                     description := Some d; duration := Some ms |}).

Definition toast_info (t : jsstring) (d : jsstring) (ms : N) : M unit :=
  emit (ShowToast {| kind := Info; updates_loading := false; title := t;
                     description := Some d; duration := Some ms |}).

(** The first effect: [setIsClient(true)]. *)
Definition effect_client : M unit := update (setIsClient true).

(** The second effect: the e-mail of the properties is written into the
    form. *)
Definition effect_email : M unit :=
  s <- read ;;
  if isClient s && truthy (clientEmail props) then
    update (form_setValue Email (clientEmail props)) ;;
    update (setIsEmailPreFilled true)
  else ret tt.

(** The third effect, "skip token validation": every token is declared
    valid. *)
Definition effect_token : M unit :=
  s <- read ;;
  if negb (isClient s) then ret tt
  else update (setIsTokenValid (Some true)).

(** [token && isTokenValid === false] *)
Definition token_rejected (s : ComponentState) : bool :=
  truthy (token props)
  && match isTokenValid s with Some false => true | _ => false end.

(** [Object.entries(data)], in the order of the schema. *)
Definition entries (d : FormData) : list (jsstring * FormValue) :=
  [(js "firstName", Text (firstName d));
   (js "lastName", Text (lastName d));
   (js "email", Text (email d));
   (js "phone", Text (phone d));
   (js "address", Text (address d))].

(** The multipart body built by [onSubmit]. *)
Definition build_formData (d : FormData) (file : option File)
  : list (jsstring * FormValue) :=
  entries d
  ++ (if truthy (token props) then [(js "token", Text (token props))] else [])
  ++ (if 0 <? List.length (missingFields props)
      then [(js "missingFields",
             Text (stringify P (JArray (map JString (missingFields props)))))]
      else [])
  ++ match file with
     | Some f => [(js "document", Blob f)]
     | None => []
     end.

Definition API_URL : jsstring :=
  or_else (default_to [] (NEXT_PUBLIC_API_URL P)) (js "http://37.120.176:8005").

Definition endpoint : jsstring :=
  API_URL ++ js "/api/client/submit-missing-info".

(** [setTimeout(() => controller.abort(), ms)]; the result is the deadline
    the abort signal carries. *)
Definition abort_after (ms : N) : M N :=
  emit (SetTimeout AbortController ms) ;; ret ms.

(** Whether the abort timer runs before the request settles. *)
Definition timer_fires (deadline : N) (net : Network) : bool :=
  (deadline <? latency net)%N
  || ((latency net =? deadline)%N && timer_first net).

(** [await fetch(endpoint, { method: 'POST', body, signal })] *)
Definition fetch (url : jsstring) (payload : list (jsstring * FormValue))
  (deadline : N) (net : Network) : M Response :=
  emit (HttpPost url payload) ;;
  if timer_fires deadline net then
    emit RequestAborted ;;
    throw (ErrorObject (js "AbortError") (abort_message P))
  else
    match settlement net with
    | Resolves r => ret r
    | Rejects e => throw e
    end.

(** [await response.text()] *)
Definition response_text (r : Response) : M jsstring :=
  match body r with
  | Readable t => ret t
  | Unreadable e => throw e
  end.

(** [JSON.parse(text)] *)
Definition JSON_parse (text : jsstring) : M json :=
  match parse text with
  | Some v => ret v
  | None => throw (ErrorObject (js "SyntaxError") (syntax_error_message P text))
  end.

(** [await response.json()] *)
Definition response_json (r : Response) : M json :=
  t <- response_text r ;; JSON_parse t.

(** [v.k]; reading a property of [null] throws. *)
Definition get (v : json) (k : jsstring) : M (option json) :=
  match v with
  | JNull => throw (ErrorObject (js "TypeError") (type_error_message P))
  | _ => ret (property v k)
  end.

(** [a || b] where [a] may be [undefined]. *)
Definition js_or (a : option json) (b : json) : json :=
  match a with
  | Some v => if truthy_value P v then v else b
  | None => b
  end.

(** The block under [if (!response.ok)] up to the [throw]: the value of
    [errorMessage]. *)
Definition read_error_message (r : Response) : M json :=
  let errorMessage := js "Server error! Status: " ++ decimal (status r) in
  try_catch
    (errorText <- response_text r ;;
     if truthy errorText then
       try_catch
         (let cleanErrorText := strip_wrapping_quotes errorText in
          errorData <- JSON_parse cleanErrorText ;;
          detail <- get errorData (js "detail") ;;
          message <- get errorData (js "message") ;;
          ret (js_or detail (js_or message (JString (stringify P errorData)))))
         (fun _ => ret (JString (or_else errorText errorMessage)))
     else ret (JString errorMessage))
    (fun _ => ret (JString errorMessage)).

(** [new Error(v)]: the message is [String(v)]; the conversion itself
    throws a [TypeError] when it fails. *)
Definition error_of (v : json) : Thrown :=
  match to_string P v with
  | Some message => ErrorObject (js "Error") message
  | None => ErrorObject (js "TypeError") (type_error_message P)
  end.

(** [throw new Error(v)] *)
Definition throw_new_Error {A : Type} (v : json) : M A := throw (error_of v).

Definition timeout_message : jsstring :=
  js "Die Verbindung zum Server hat zu lange gedauert. Bitte überprüfen Sie Ihre Internetverbindung und versuchen Sie es erneut.".

Definition connection_message : jsstring :=
  js "Verbindung zum Server fehlgeschlagen. Bitte stellen Sie sicher, dass der Server läuft.".

Definition expired_link_message : jsstring :=
  js "Dieser Formular-Link ist abgelaufen. Bitte fordern Sie einen neuen Link an.".

Definition generic_message : jsstring :=
  js "Bitte versuchen Sie es später erneut.".

(** The text the [catch] block of [onSubmit] shows for a thrown value. *)
Definition describe (error : Thrown) : jsstring :=
  match error with
  | ErrorObject name message =>
      if eqb name (js "AbortError") then timeout_message
      else if includes message (js "Failed to fetch") then connection_message
      else if includes message (js "Invalid or expired token")
      then expired_link_message
      else message
  | NotAnError => generic_message
  end.

Definition failure_toast (d : jsstring) : Toast :=
  {| kind := Failure; updates_loading := true;
     title := js "Übermittlung fehlgeschlagen";
     description := Some d; duration := Some 7000%N |}.

Definition success_toast : Toast :=
  {| kind := Success; updates_loading := true;
     title := js "Erfolgreich übermittelt!";
     description :=
       Some (js "Vielen Dank! Ihre Informationen wurden gespeichert.");
     duration := Some 5000%N |}.

Definition invalid_link_toast : Toast :=
  {| kind := Failure; updates_loading := false;
     title := js "Ungültiger Link";
     description :=
       Some (js "Dieser Formular-Link ist abgelaufen oder ungültig.");
     duration := Some 5000%N |}.

(** The argument of [form.reset] after a success. *)
Definition reset_values : FormData :=
  {| firstName := []; lastName := [];
     email := or_else (clientEmail props) [];
     phone := []; address := [] |}.

(** The body of the [try] block of [onSubmit]; [file] is the
    [selectedFile] the handler closed over. *)
Definition submission (data : FormData) (file : option File) (net : Network)
  : M unit :=
  let formData := build_formData data file in
  signal <- abort_after 30000 ;;
  response <- fetch endpoint formData signal net ;;
  emit (ClearTimeout AbortController) ;;
  (if negb (ok response) then
     errorMessage <- read_error_message response ;;
     throw_new_Error errorMessage
   else ret tt) ;;
  _ <- response_json response ;;
  emit (ShowToast success_toast) ;;
  update (form_reset reset_values) ;;
  update (setSelectedFile None) ;;
  emit ResetFileInput ;;
  emit (SetTimeout GoToSuccess 2000).

(** The [try] block with its [catch]. *)
Definition guarded_submission (data : FormData) (file : option File)
  (net : Network) : M unit :=
  try_catch (submission data file net)
    (fun error => emit (ShowToast (failure_toast (describe error)))).

Definition loading_toast : Toast :=
  {| kind := Loading; updates_loading := false;
     title := js "Ihre Informationen werden verarbeitet...";
     description := None; duration := None |}.

(** The statements of [onSubmit] between the token check and the [try]. *)
Definition begin_submission : M unit :=
  update (setIsSubmitting true) ;;
  emit (ShowToast loading_toast).

Definition onSubmit (data : FormData) (net : Network) : M unit :=
  s <- read ;;
  if token_rejected s then emit (ShowToast invalid_link_toast)
  else
    begin_submission ;;
    try_finally
      (guarded_submission data (selectedFile s) net)
      (update (setIsSubmitting false)).

Definition allowedTypes : list jsstring :=
  [js "application/pdf";
   js "application/msword";
   js "application/vnd.openxmlformats-officedocument.wordprocessingml.document";
   js "text/plain";
   js "image/jpeg";
   js "image/png"].

Definition maxSize : N := 10 * 1024 * 1024.

(** [allowedTypes.includes(t)] *)
Definition type_allowed (t : jsstring) : bool := existsb (eqb t) allowedTypes.

(** [handleFileChange]; the argument is [event.target.files?.[0] || null]. *)
Definition handleFileChange (file : option File) : M unit :=
  match file with
  | Some f =>
      if negb (type_allowed (file_type f)) then
        toast_error (js "Ungültiger Dateityp")
          (js "Bitte laden Sie nur PDF, DOC, DOCX, TXT, JPG oder PNG Dateien hoch.")
          5000 ;;
        emit ResetFileInput
      else if (maxSize <? file_size f)%N then
        toast_error (js "Datei zu groß")
          (js "Bitte laden Sie Dateien kleiner als 10MB hoch.") 5000 ;;
        emit ResetFileInput
      else
        update (setSelectedFile (Some f)) ;;
        toast_info (js "Datei ausgewählt")
          (file_name f ++ js " wurde zum Hochladen ausgewählt.") 3000
  | None => ret tt
  end.

Definition handleRemoveFile : M unit :=
  s <- read ;;
  match selectedFile s with
  | Some f =>
      toast_info (js "Datei entfernt") (file_name f ++ js " wurde entfernt.")
        3000
  | None => ret tt
  end ;;
  update (setSelectedFile None) ;;
  emit ResetFileInput.

(** A field's [onChange]. *)
Definition updateField (f : Field) (v : jsstring) : M unit :=
  update (form_setValue f v).

(** [form.handleSubmit(onSubmit)] of react-hook-form with the zod resolver:
    the handler is called with the values only when the schema reports no
    issue; otherwise the issues are shown at the fields. *)
Definition handleSubmit (net : Network) : M unit :=
  s <- read ;;
  match formSchema (values s) with
  | [] => onSubmit (values s) net
  | errors => emit (FieldErrors errors)
  end.

(** [isSubmitDisabled] *)
Definition isSubmitDisabled (s : ComponentState) : bool :=
  isSubmitting s || token_rejected s.

(** ** The component as a transition system *)

Inductive Event :=
| ClientEffect
| EmailEffect
| TokenEffect
| FieldChange (f : Field) (v : jsstring)
| FileChange (file : option File)
| RemoveFile
| Submit (net : Network).

Definition handler (e : Event) : M unit :=
  match e with
  | ClientEffect => effect_client
  | EmailEffect => effect_email
  | TokenEffect => effect_token
  | FieldChange f v => updateField f v
  | FileChange file => handleFileChange file
  | RemoveFile => handleRemoveFile
  | Submit net => handleSubmit net
  end.

(** The states the component can be in between two events, whatever the
    order of the events. *)
Inductive reachable : ComponentState -> Prop :=
| reachable_initial : reachable initial_state
| reachable_step (s : ComponentState) (e : Event) :
    reachable s -> reachable (state_after (handler e) s).

(** A sequence of events, run one after the other. *)
Definition run_events (es : list Event) (s : ComponentState) : ComponentState :=
  fold_left (fun st e => state_after (handler e) st) es s.

End Component.

(** ** The vocabulary of the specification *)

(** The five field rules, as the data model states them. *)
Definition field_rules (P : Platform) (d : FormData) : Prop :=
  2 <= length (firstName d)
  /\ 2 <= length (lastName d)
  /\ email_format P (email d) = true
  /\ 10 <= length (phone d)
  /\ 5 <= length (address d).

(** The constraints on an attachment, as the data model states them: the
    MIME type is one of the six allowed types and the size is at most
    10 MiB. *)
Definition attachment_constraints (f : File) : Prop :=
  In (file_type f) allowedTypes /\ (file_size f <= 10 * 1024 * 1024)%N.

(** A stored attachment, if any, satisfies the constraints. *)
Definition attachment_ok (s : ComponentState) : Prop :=
  match selectedFile s with
  | Some f => attachment_constraints f
  | None => True
  end.

(** The descriptions of the error toasts among the effects of a run. *)
Definition surfaced_errors (log : list Effect) : list jsstring :=
  flat_map
    (fun e =>
       match e with
       | ShowToast t =>
           match kind t, description t with
           | Failure, Some d => [d]
           | _, _ => []
           end
       | _ => []
       end) log.

(** What the [catch] block shows for an [Error] whose message is [m]: the
    message itself, unless it contains one of two marker texts. *)
Definition shown_for (m : jsstring) : jsstring :=
  if includes m (js "Failed to fetch") then connection_message
  else if includes m (js "Invalid or expired token") then expired_link_message
  else m.

(** A property is absent or falsy. *)
Definition falsy (P : Platform) (o : option json) : Prop :=
  match o with
  | Some d => truthy_value P d = false
  | None => True
  end.

(** The message extracted from a response, in the words of the
    specification: the [detail] field of the decoded body, else its
    [message] field, else the decoded body printed as JSON; the raw text
    when the body does not decode (or decodes to [null]); a generic text
    with the status code when the body is empty or unreadable. *)
Inductive server_message (P : Platform) (r : Response) : jsstring -> Prop :=
| message_from_detail (t : jsstring) (v d : json) (m : jsstring) :
    body r = Readable t -> t <> [] ->
    parse (strip_wrapping_quotes t) = Some v ->
    property v (js "detail") = Some d ->
    truthy_value P d = true ->
    to_string P d = Some m ->
    server_message P r m
| message_from_message (t : jsstring) (v d : json) (m : jsstring) :
    body r = Readable t -> t <> [] ->
    parse (strip_wrapping_quotes t) = Some v ->
    falsy P (property v (js "detail")) ->
    property v (js "message") = Some d ->
    truthy_value P d = true ->
    to_string P d = Some m ->
    server_message P r m
| message_from_json (t : jsstring) (v : json) :
    body r = Readable t -> t <> [] ->
    parse (strip_wrapping_quotes t) = Some v ->
    v <> JNull ->
    falsy P (property v (js "detail")) ->
    falsy P (property v (js "message")) ->
    server_message P r (stringify P v)
| message_raw (t : jsstring) :
    body r = Readable t -> t <> [] ->
    parse (strip_wrapping_quotes t) = None
    \/ parse (strip_wrapping_quotes t) = Some JNull ->
    server_message P r t
| message_generic :
    body r = Readable [] \/ (exists e, body r = Unreadable e) ->
    server_message P r (js "Server error! Status: " ++ decimal (status r)).

(** ** The expected shape of a run *)

Section Expected.

Variable P : Platform.
Variable props : Props.

(** The state after the success path: the form reset, no attachment. *)
Definition after_success (s : ComponentState) : ComponentState :=
  setSelectedFile None (form_reset (reset_values props) s).

(** The effects of the [try] block up to the point where [fetch] is
    called. *)
Definition request_log (data : FormData) (file : option File) : list Effect :=
  [SetTimeout AbortController 30000;
   HttpPost (endpoint P) (build_formData P props data file)].

Definition success_log : list Effect :=
  [ClearTimeout AbortController; ShowToast success_toast; ResetFileInput;
   SetTimeout GoToSuccess 2000].

End Expected.

(** ** A platform and data for running the model on examples *)

Fixpoint mantissa (literal : jsstring) : jsstring :=
  match literal with
  | [] => []
  | c :: rest => if ((c =? 101) || (c =? 69))%N then [] else c :: mantissa rest
  end.

Definition example_platform : Platform :=
  {| email_format := fun s => includes s (js "@");
     NEXT_PUBLIC_API_URL := None;
     abort_message := js "signal is aborted without reason";
     syntax_error_message := fun _ => js "Unexpected end of JSON input";
     type_error_message := js "Cannot convert object to primitive value";
     number_truthy := fun l => existsb is_digit19 (mantissa l);
     number_finite := fun _ => true;
     number_toString := fun l => l |}.

Definition example_page : AttractiveFormProps :=
  FormPageContent (Some (js "anna@example.org")) (Some (js "tok123")).

Definition example_record : FormData :=
  {| firstName := js "Anna"; lastName := js "Berg";
     email := js "anna@example.org"; phone := js "+43123456789";
     address := js "Ring 1, Wien" |}.

Definition example_file : File :=
  {| file_name := js "scan.pdf"; file_size := 2048;
     file_type := js "application/pdf" |}.

Definition oversized_file : File :=
  {| file_name := js "movie.mp4"; file_size := 50000000;
     file_type := js "video/mp4" |}.

Definition example_state : ComponentState :=
  {| isSubmitting := false; selectedFile := Some example_file;
     isEmailPreFilled := true; isTokenValid := Some true; isClient := true;
     values := example_record |}.

Definition example_events : list Event :=
  [ClientEffect; EmailEffect; TokenEffect;
   FieldChange FirstName (js "Anna");
   FieldChange LastName (js "Berg");
   FieldChange Phone (js "+43123456789");
   FieldChange Address (js "Ring 1, Wien");
   FileChange (Some example_file)].

Definition responds (code : N) (text : jsstring) : Network :=
  {| latency := 120; timer_first := false;
     settlement := Resolves {| status := code; body := Readable text |} |}.

(** The errors shown by a submission of the example record. *)
Definition example_errors (net : Network) : list jsstring :=
  surfaced_errors
    (effects_of
       (onSubmit example_platform (destructure example_page) example_record
          net) example_state).

(** ** The rest of the component: the icon, the screens, the controls *)

(** [s.split(sep)] for a separator of one code unit; the result is never
    empty. *)
Fixpoint split (sep : code_unit) (s : jsstring) : list jsstring :=
  match s with
  | [] => [[]]
  | c :: s' =>
      if (c =? sep)%N then [] :: split sep s'
      else match split sep s' with
           | segment :: segments => (c :: segment) :: segments
           | [] => [[c]]
           end
  end.

(** [a.pop()]: the last element, [undefined] for an empty array. *)
Fixpoint pop {A : Type} (l : list A) : option A :=
  match l with
  | [] => None
  | [x] => Some x
  | _ :: rest => pop rest
  end.

(** The four pictures [getFileIcon] returns, by their colour class:
    [text-red-500], [text-blue-500], [text-green-500], [text-gray-500]. *)
Inductive Icon := RedDocument | BlueDocument | GreenPicture | GrayDocument.

(** [getFileIcon]; [toLowerCase] is the engine's
    [String.prototype.toLowerCase]. *)
Definition getFileIcon (toLowerCase : jsstring -> jsstring)
  (fileName : jsstring) : Icon :=
  let extension := option_map toLowerCase (pop (split 46%N fileName)) in
  match extension with
  | Some e =>
      if eqb e (js "pdf") then RedDocument
      else if eqb e (js "doc") || eqb e (js "docx") then BlueDocument
      else if eqb e (js "jpg") || eqb e (js "jpeg") || eqb e (js "png")
      then GreenPicture
      else GrayDocument
  | None => GrayDocument
  end.

(** Lower and upper case of one ASCII letter; other code units are kept. *)
Definition ascii_lower (c : code_unit) : code_unit :=
  if ((65 <=? c) && (c <=? 90))%N then (c + 32)%N else c.

Definition ascii_upper (c : code_unit) : code_unit :=
  if ((97 <=? c) && (c <=? 122))%N then (c - 32)%N else c.

Definition is_ascii (s : jsstring) : bool := forallb (fun c => (c <? 128)%N) s.

(** What is known of [toLowerCase] without the Unicode tables: on a text of
    ASCII characters it lowers the letters A to Z and keeps the rest. *)
Definition lowers_ascii (toLowerCase : jsstring -> jsstring) : Prop :=
  forall s : jsstring, is_ascii s = true -> toLowerCase s = map ascii_lower s.

(** The three [return]s of the component. *)
Inductive Screen := CheckingLinkScreen | InvalidLinkScreen | FormScreen.

Definition screen (props : Props) (s : ComponentState) : Screen :=
  if isClient s && truthy (token props)
     && match isTokenValid s with None => true | _ => false end
  then CheckingLinkScreen
  else if isClient s && truthy (token props)
          && match isTokenValid s with Some false => true | _ => false end
  then InvalidLinkScreen
  else FormScreen.




(** ** More vocabulary *)

(** A candidate file passes both checks of [handleFileChange]. *)
Definition acceptable (f : File) : bool :=
  type_allowed (file_type f) && (file_size f <=? maxSize)%N.

(** The last acceptable candidate of a series of selections, or the
    attachment there was before. *)
Definition last_acceptable (candidates : list (option File))
  (before : option File) : option File :=
  fold_left
    (fun current candidate =>
       match candidate with
       | Some f => if acceptable f then Some f else current
       | None => current
       end) candidates before.

(** A series of file selections, one after the other. *)
Definition select_all (candidates : list (option File)) (s : ComponentState)
  : ComponentState :=
  fold_left (fun st c => state_after (handleFileChange c) st) candidates s.

(** The request is answered in time, with a status from 200 to 299 and a
    readable JSON body. *)
Definition answered_with_success (net : Network) : bool :=
  negb (timer_fires 30000 net)
  && match settlement net with
     | Resolves r =>
         ok r
         && match body r with
            | Readable t =>
                match parse t with Some _ => true | None => false end
            | Unreadable _ => false
            end
     | Rejects _ => false
     end.

(** The value of a field of the multipart body. *)
Fixpoint field_value (name : jsstring) (payload : list (jsstring * FormValue))
  : option FormValue :=
  match payload with
  | [] => None
  | (k, v) :: rest => if eqb name k then Some v else field_value name rest
  end.

(** The value of a field of the record. *)
Definition value_of (f : Field) (d : FormData) : jsstring :=
  match f with
  | FirstName => firstName d
  | LastName => lastName d
  | Email => email d
  | Phone => phone d
  | Address => address d
  end.

(** The rule of the schema for one field. *)
Definition field_rule (P : Platform) (f : Field) (v : jsstring) : bool :=
  match f with
  | FirstName | LastName => 2 <=? length v
  | Email => email_format P v
  | Phone => 10 <=? length v
  | Address => 5 <=? length v
  end.

Definition field_eqb (a b : Field) : bool :=
  match a, b with
  | FirstName, FirstName | LastName, LastName | Email, Email
  | Phone, Phone | Address, Address => true
  | _, _ => false
  end.

(** * Part II: properties *)

(** ** Strings and JSON on examples *)

Lemma jsstring_eqb_spec (a b : jsstring) : reflect (a = b) (eqb a b).
Proof.
  revert b; induction a as [|x a IH]; intros [|y b]; simpl;
    try (constructor; congruence).
  destruct (N.eqb_spec x y) as [->|Hxy]; simpl.
  - destruct (IH b) as [->|Hab]; constructor; congruence.
  - constructor; congruence.
Qed.

Lemma jsstring_eqb_eq (a b : jsstring) : eqb a b = true <-> a = b.
Proof. destruct (jsstring_eqb_spec a b); split; congruence. Qed.

Lemma jsstring_eqb_refl (a : jsstring) : eqb a a = true.
Proof. apply jsstring_eqb_eq; reflexivity. Qed.

Example js_umlaut : js "Ungültig" = [85; 110; 103; 252; 108; 116; 105; 103]%N.
Proof. reflexivity. Qed.

Example decimal_404 : decimal 404 = js "404".
Proof. reflexivity. Qed.

Example strip_both : strip_wrapping_quotes (jsq "'ab'") = js "ab".
Proof. reflexivity. Qed.

Example strip_lone_quote : strip_wrapping_quotes [34%N] = [].
Proof. reflexivity. Qed.

Example includes_inner : includes (js "xx Failed to fetch yy") (js "Failed to fetch") = true.
Proof. reflexivity. Qed.

Example parse_detail :
  parse (jsq "{'detail':'token expired'}")
  = Some (JObject [(js "detail", JString (js "token expired"))]).
Proof. reflexivity. Qed.

Example parse_nested :
  parse (jsq " { 'a' : [1, 2.5e3, true, null, {'b':'x\nA'}] , '2':0, '1':-1, 'a':[] } ")
  = Some (JObject [(js "1", JNumber (js "-1")); (js "2", JNumber (js "0"));
                   (js "a", JArray [])]).
Proof. reflexivity. Qed.

Example parse_rejects :
  map parse [js ""; js "{"; jsq "{'a':1,}"; js "[1,]"; js "01"; js "1."; js "tru";
             js "token expired"; jsq "'ab"; js "[1 2]"; js "1 2"; js "nul l"; jsq "{'a'}";
             js "-"; js "+1"; js ".5"; js "1e"; jsq "{'a':1}}"; js "]"]
  = repeat None 19.
Proof. reflexivity. Qed.

Example parse_accepts :
  map parse [js "0"; js "-0.5E+7"; js " null "; jsq "'a'"; js "[]"; js "{}"; js "[[],{}]"]
  = [Some (JNumber (js "0")); Some (JNumber (js "-0.5E+7")); Some JNull;
     Some (JString (js "a")); Some (JArray []); Some (JObject []);
     Some (JArray [JArray []; JObject []])].
Proof. reflexivity. Qed.

Lemma or_else_empty (a : jsstring) : or_else a [] = a.
Proof. destruct a; reflexivity. Qed.

Lemma truthy_iff (a : jsstring) : truthy a = true <-> a <> [].
Proof. destruct a; cbn; split; congruence. Qed.

Lemma starts_with_spec (p s : jsstring) :
  starts_with p s = true <-> exists rest, s = p ++ rest.
Proof.
  revert s. induction p as [|x p IH]; intros s; cbn.
  - split; [intros _; exists s; reflexivity | reflexivity].
  - destruct s as [|y s].
    + split; [discriminate | intros [rest H]; discriminate H].
    + rewrite andb_true_iff, N.eqb_eq, IH. split.
      * intros [-> [rest ->]]. exists rest. reflexivity.
      * intros [rest H]. injection H as -> ->. split; [reflexivity|].
        exists rest. reflexivity.
Qed.

(** [includes] is the substring test. *)
Lemma includes_spec (s needle : jsstring) :
  includes s needle = true <-> exists before after, s = before ++ needle ++ after.
Proof.
  induction s as [|c s IH]; cbn [includes].
  - rewrite starts_with_spec. split.
    + intros [rest H]. symmetry in H. apply app_eq_nil in H.
      destruct H as [-> ->]. exists [], []. reflexivity.
    + intros [before [after H]]. symmetry in H. apply app_eq_nil in H.
      destruct H as [_ H]. apply app_eq_nil in H. destruct H as [-> _].
      exists []. reflexivity.
  - rewrite orb_true_iff, starts_with_spec, IH. split.
    + intros [[rest H]|[before [after H]]].
      * exists [], rest. exact H.
      * exists (c :: before), after. rewrite H. reflexivity.
    + intros [[|b before] [after H]].
      * left. exists after. exact H.
      * right. injection H as _ H. exists before, after. exact H.
Qed.

Lemma drop_trailing_quote_app (s : jsstring) :
  drop_trailing_quote (s ++ [34%N]) = s.
Proof.
  induction s as [|c s IH]; [reflexivity|].
  cbn [app drop_trailing_quote]. rewrite IH.
  destruct (s ++ [34%N]) eqn:E; [|reflexivity].
  destruct s; discriminate E.
Qed.

(** A text wrapped in double quotes loses exactly the two quotes. *)
Lemma strip_wrapped (s : jsstring) :
  strip_wrapping_quotes ([34%N] ++ s ++ [34%N]) = s.
Proof. apply drop_trailing_quote_app. Qed.

Lemma In_existsb (x : jsstring) (l : list jsstring) :
  In x l <-> existsb (eqb x) l = true.
Proof.
  rewrite existsb_exists. split.
  - intros Hin. exists x. split; [exact Hin | apply jsstring_eqb_refl].
  - intros [y [Hin Heq]]. apply jsstring_eqb_eq in Heq. subst. exact Hin.
Qed.

Lemma nonempty_iff {A : Type} (l : list A) :
  (0 <? List.length l) = true <-> l <> [].
Proof. destruct l; cbn; split; congruence. Qed.

(** ** Running a handler *)

Ltac unfold_monad :=
  unfold state_after, effects_of, completion_of, try_finally, try_catch,
    bind, ret, throw, emit, update, read in *.

Ltac run := unfold_monad; cbn [fst snd app] in *.

(** ** The validation schema *)

Lemma min_length_nil (n : nat) (f : Field) (m v : jsstring) :
  min_length n f m v = [] <-> n <= length v.
Proof.
  unfold min_length. destruct (Nat.ltb_spec (length v) n); split;
    intros; try reflexivity; try discriminate; lia.
Qed.

Lemma email_check_nil (P : Platform) (f : Field) (m v : jsstring) :
  email_check P f m v = [] <-> email_format P v = true.
Proof.
  unfold email_check. destruct (email_format P v); split; congruence.
Qed.

Lemma issues_nil (a b : list (Field * jsstring)) :
  a ++ b = [] <-> a = [] /\ b = [].
Proof.
  split.
  - apply app_eq_nil.
  - intros [-> ->]. reflexivity.
Qed.

Lemma formSchema_nil (P : Platform) (d : FormData) :
  formSchema P d = [] <-> field_rules P d.
Proof.
  unfold formSchema, field_rules.
  repeat rewrite issues_nil.
  repeat rewrite min_length_nil. rewrite email_check_nil. tauto.
Qed.

Lemma accepts_iff (P : Platform) (d : FormData) :
  accepts P d = true <-> field_rules P d.
Proof.
  rewrite <- formSchema_nil. unfold accepts.
  destruct (formSchema P d); split; congruence.
Qed.

(** ** The runs of [onSubmit] *)

Section Runs.

Variable P : Platform.
Variable props : Props.

(** Reading the error body neither throws, nor changes the state, nor has
    an effect. *)
Lemma read_error_message_pure (r : Response) (s : ComponentState) :
  exists v, read_error_message P r s = (Normal v, s, []).
Proof.
  unfold read_error_message, response_text, JSON_parse, get.
  destruct (body r) as [t|e]; run; [|eauto].
  destruct (truthy t); run; [|eauto].
  destruct (parse (strip_wrapping_quotes t)) as [v|]; run; [|eauto].
  destruct v; run; eauto.
Qed.

(** The request ran into the deadline. *)
Lemma run_timeout (data : FormData) (file : option File) (net : Network)
  (s : ComponentState) :
  timer_fires 30000 net = true ->
  guarded_submission P props data file net s
  = (Normal tt, s,
     request_log P props data file
     ++ [RequestAborted;
         ShowToast (failure_toast
                      (describe (ErrorObject (js "AbortError")
                                   (abort_message P))))]).
Proof.
  intros Ht. unfold guarded_submission, submission, abort_after, fetch.
  run. rewrite Ht. reflexivity.
Qed.

(** The request failed before any response. *)
Lemma run_rejected (data : FormData) (file : option File) (net : Network)
  (s : ComponentState) (e : Thrown) :
  timer_fires 30000 net = false ->
  settlement net = Rejects e ->
  guarded_submission P props data file net s
  = (Normal tt, s,
     request_log P props data file ++ [ShowToast (failure_toast (describe e))]).
Proof.
  intros Ht Hs. unfold guarded_submission, submission, abort_after, fetch.
  run. rewrite Ht, Hs. reflexivity.
Qed.

(** The server answered with a status outside 200-299. *)
Lemma run_server_error (data : FormData) (file : option File) (net : Network)
  (s : ComponentState) (r : Response) (v : json) :
  timer_fires 30000 net = false ->
  settlement net = Resolves r ->
  ok r = false ->
  read_error_message P r s = (Normal v, s, []) ->
  guarded_submission P props data file net s
  = (Normal tt, s,
     request_log P props data file
     ++ [ClearTimeout AbortController;
         ShowToast (failure_toast (describe (error_of P v)))]).
Proof.
  intros Ht Hs Hok Hv.
  unfold guarded_submission, submission, abort_after, fetch.
  run. rewrite Ht, Hs. cbn. rewrite Hok. cbn. rewrite Hv.
  reflexivity.
Qed.

(** The server answered 2xx but the body could not be read as JSON. *)
Lemma run_bad_success_body (data : FormData) (file : option File)
  (net : Network) (s : ComponentState) (r : Response) (e : Thrown) :
  timer_fires 30000 net = false ->
  settlement net = Resolves r ->
  ok r = true ->
  response_json P r s = (Throw e, s, []) ->
  guarded_submission P props data file net s
  = (Normal tt, s,
     request_log P props data file
     ++ [ClearTimeout AbortController;
         ShowToast (failure_toast (describe e))]).
Proof.
  intros Ht Hs Hok Hv.
  unfold guarded_submission, submission, abort_after, fetch.
  run. rewrite Ht, Hs. cbn. rewrite Hok. cbn. rewrite Hv. reflexivity.
Qed.

(** The server answered 2xx with a JSON body. *)
Lemma run_success (data : FormData) (file : option File) (net : Network)
  (s : ComponentState) (r : Response) (v : json) :
  timer_fires 30000 net = false ->
  settlement net = Resolves r ->
  ok r = true ->
  response_json P r s = (Normal v, s, []) ->
  guarded_submission P props data file net s
  = (Normal tt, after_success props s, request_log P props data file ++ success_log).
Proof.
  intros Ht Hs Hok Hv.
  unfold guarded_submission, submission, abort_after, fetch.
  run. rewrite Ht, Hs. cbn. rewrite Hok. cbn. rewrite Hv. reflexivity.
Qed.

Lemma response_json_run (r : Response) (s : ComponentState) :
  (exists v, response_json P r s = (Normal v, s, []))
  \/ (exists e, response_json P r s = (Throw e, s, [])).
Proof.
  unfold response_json, response_text, JSON_parse.
  destruct (body r) as [t|e]; run; [|eauto].
  destruct (parse t); run; eauto.
Qed.

(** Every run of the [try]/[catch] ends normally; it either leaves the
    state as it was and shows one failure toast, or resets the form. *)
Lemma guarded_submission_run (data : FormData) (file : option File)
  (net : Network) (s : ComponentState) :
  (exists tail d,
      guarded_submission P props data file net s
      = (Normal tt, s,
         request_log P props data file ++ tail ++ [ShowToast (failure_toast d)])
      /\ (tail = [RequestAborted] \/ tail = []
          \/ tail = [ClearTimeout AbortController]))
  \/ guarded_submission P props data file net s
     = (Normal tt, after_success props s, request_log P props data file ++ success_log).
Proof.
  destruct (timer_fires 30000 net) eqn:Ht.
  - left. exists [RequestAborted]. eexists. split.
    + rewrite run_timeout by assumption. reflexivity.
    + auto.
  - destruct (settlement net) as [r|e] eqn:Hs.
    + destruct (ok r) eqn:Hok.
      * destruct (response_json_run r s) as [[v Hv]|[e He]].
        -- right. eapply run_success; eassumption.
        -- left. exists [ClearTimeout AbortController]. eexists. split.
           ++ erewrite run_bad_success_body by eassumption. reflexivity.
           ++ auto.
      * destruct (read_error_message_pure r s) as [v Hv].
        left. exists [ClearTimeout AbortController]. eexists. split.
        -- erewrite run_server_error by eassumption. reflexivity.
        -- auto.
    + left. exists []. eexists. split.
      * erewrite run_rejected by eassumption. reflexivity.
      * auto.
Qed.

(** [onSubmit] when the token gate lets the submission through. *)
Lemma onSubmit_run (data : FormData) (net : Network) (s : ComponentState) :
  token_rejected props s = false ->
  onSubmit P props data net s
  = (let r := guarded_submission P props data (selectedFile s) net
                (setIsSubmitting true s) in
     (fst (fst r), setIsSubmitting false (snd (fst r)),
      ShowToast loading_toast :: snd r)).
Proof.
  intros Hg. unfold onSubmit, begin_submission.
  unfold bind at 1. unfold read. rewrite Hg.
  unfold bind, update, emit, try_finally.
  destruct (guarded_submission P props data (selectedFile s) net
              (setIsSubmitting true s)) as [[c s'] log].
  cbn [fst snd app]. rewrite app_nil_r. reflexivity.
Qed.

(** [onSubmit] when the token gate rejects. *)
Lemma onSubmit_rejected (data : FormData) (net : Network)
  (s : ComponentState) :
  token_rejected props s = true ->
  onSubmit P props data net s = (Normal tt, s, [ShowToast invalid_link_toast]).
Proof.
  intros Hg. unfold onSubmit. run. rewrite Hg. reflexivity.
Qed.

End Runs.

(** ** The file handlers *)

Lemma type_allowed_In (t : jsstring) :
  type_allowed t = true <-> In t allowedTypes.
Proof.
  unfold type_allowed. rewrite existsb_exists. split.
  - intros [x [Hin Heq]]. apply jsstring_eqb_eq in Heq. subst. exact Hin.
  - intros Hin. exists t. split; [exact Hin | apply jsstring_eqb_refl].
Qed.

(** [handleFileChange] on an acceptable file. *)
Lemma handleFileChange_accept (f : File) (s : ComponentState) :
  type_allowed (file_type f) = true ->
  (file_size f <=? maxSize)%N = true ->
  handleFileChange (Some f) s
  = (Normal tt, setSelectedFile (Some f) s,
     [ShowToast {| kind := Info; updates_loading := false;
                   title := js "Datei ausgewählt";
                   description :=
                     Some (file_name f ++ js " wurde zum Hochladen ausgewählt.");
                   duration := Some 3000%N |}]).
Proof.
  intros Ht Hs. unfold handleFileChange. rewrite Ht.
  apply N.leb_le in Hs. apply N.ltb_ge in Hs. cbn [negb]. rewrite Hs.
  reflexivity.
Qed.

(** [handleFileChange] on a file of a type that is not allowed. *)
Lemma handleFileChange_bad_type (f : File) (s : ComponentState) :
  type_allowed (file_type f) = false ->
  handleFileChange (Some f) s
  = (Normal tt, s,
     [ShowToast {| kind := Failure; updates_loading := false;
                   title := js "Ungültiger Dateityp";
                   description :=
                     Some (js "Bitte laden Sie nur PDF, DOC, DOCX, TXT, JPG oder PNG Dateien hoch.");
                   duration := Some 5000%N |};
      ResetFileInput]).
Proof. intros Ht. unfold handleFileChange. rewrite Ht. reflexivity. Qed.

(** [handleFileChange] on a file of an allowed type that is too large. *)
Lemma handleFileChange_too_large (f : File) (s : ComponentState) :
  type_allowed (file_type f) = true ->
  (maxSize <? file_size f)%N = true ->
  handleFileChange (Some f) s
  = (Normal tt, s,
     [ShowToast {| kind := Failure; updates_loading := false;
                   title := js "Datei zu groß";
                   description :=
                     Some (js "Bitte laden Sie Dateien kleiner als 10MB hoch.");
                   duration := Some 5000%N |};
      ResetFileInput]).
Proof.
  intros Ht Hs. unfold handleFileChange. rewrite Ht. cbn [negb]. rewrite Hs.
  reflexivity.
Qed.

(** ** Invariants of the reachable states *)

Section Invariants.

Variable P : Platform.
Variable props : Props.

(** The state after [onSubmit]: untouched by the token gate, or back to
    idle with the form as it was, or back to idle with the form reset. *)
Lemma onSubmit_state (data : FormData) (net : Network) (s : ComponentState) :
  let s' := state_after (onSubmit P props data net) s in
  (token_rejected props s = true /\ s' = s)
  \/ (token_rejected props s = false
      /\ (s' = setIsSubmitting false s
          \/ s' = setIsSubmitting false (after_success props s))).
Proof.
  cbv zeta. unfold state_after.
  destruct (token_rejected props s) eqn:Hg.
  - left. rewrite onSubmit_rejected by assumption. auto.
  - right. split; [reflexivity|]. rewrite onSubmit_run by assumption.
    destruct (guarded_submission_run P props data (selectedFile s) net
                (setIsSubmitting true s)) as [[tail [d [Hrun _]]]|Hrun];
      rewrite Hrun; cbn [fst snd]; auto.
Qed.

(** [handleSubmit] on values the schema accepts. *)
Lemma handleSubmit_valid (net : Network) (s : ComponentState) :
  formSchema P (values s) = [] ->
  handleSubmit P props net s = onSubmit P props (values s) net s.
Proof.
  intros Hv. unfold handleSubmit, bind, read. rewrite Hv.
  destruct (onSubmit P props (values s) net s) as [[c s'] log]. reflexivity.
Qed.

(** [handleSubmit] on values the schema rejects. *)
Lemma handleSubmit_invalid (net : Network) (s : ComponentState) :
  formSchema P (values s) <> [] ->
  handleSubmit P props net s
  = (Normal tt, s, [FieldErrors (formSchema P (values s))]).
Proof.
  intros Hv. unfold handleSubmit, bind, read.
  destruct (formSchema P (values s)) as [|issue issues]; [congruence|].
  reflexivity.
Qed.

Lemma handleSubmit_state (net : Network) (s : ComponentState) :
  let s' := state_after (handleSubmit P props net) s in
  s' = s \/ s' = setIsSubmitting false s
  \/ s' = setIsSubmitting false (after_success props s).
Proof.
  cbv zeta. unfold state_after.
  destruct (formSchema P (values s)) as [|issue issues] eqn:Hv.
  - rewrite handleSubmit_valid by assumption.
    pose proof (onSubmit_state (values s) net s) as H. cbv zeta in H.
    unfold state_after in H. intuition.
  - rewrite handleSubmit_invalid by congruence. left. reflexivity.
Qed.

(** What an event can do to the cells the invariants speak of. *)
Lemma handler_cells (e : Event) (s : ComponentState) :
  let s' := state_after (handler P props e) s in
  (isSubmitting s = false -> isSubmitting s' = false)
  /\ (isTokenValid s' = isTokenValid s \/ isTokenValid s' = Some true)
  /\ (selectedFile s' = selectedFile s \/ selectedFile s' = None
      \/ exists f, selectedFile s' = Some f /\ attachment_constraints f).
Proof.
  cbv zeta. destruct e as [ | | |f v|[file|]| |net]; cbn [handler].
  - cbn. auto.
  - unfold state_after, effect_email. run.
    destruct (isClient s && truthy (clientEmail props)); cbn; auto.
  - unfold state_after, effect_token. run.
    destruct (negb (isClient s)); cbn; auto.
  - cbn. auto.
  - unfold state_after.
    destruct (type_allowed (file_type file)) eqn:Ht.
    + destruct (maxSize <? file_size file)%N eqn:Hs.
      * rewrite handleFileChange_too_large by assumption. cbn. auto.
      * rewrite handleFileChange_accept; [| assumption |].
        -- cbn. repeat split; auto. right. right. exists file. split; auto.
           split; [apply type_allowed_In; assumption|].
           apply N.ltb_ge in Hs. exact Hs.
        -- apply N.leb_le. apply N.ltb_ge in Hs. exact Hs.
    + rewrite handleFileChange_bad_type by assumption. cbn. auto.
  - cbn. auto.
  - unfold state_after, handleRemoveFile. run.
    destruct (selectedFile s); cbn; auto.
  - pose proof (handleSubmit_state net s) as H. cbv zeta in H.
    destruct H as [H|[H|H]]; rewrite H; cbn; auto.
Qed.

Lemma handler_attachment_ok (e : Event) (s : ComponentState) :
  attachment_ok s -> attachment_ok (state_after (handler P props e) s).
Proof.
  intros Hs. destruct (handler_cells e s) as [_ [_ H]].
  unfold attachment_ok in *.
  destruct H as [H|[H|[f [H Hf]]]]; rewrite H; auto.
Qed.

(** Between two events the form is idle, the token has not been found
    invalid, and the attachment satisfies its constraints. *)
Lemma reachable_invariant (s : ComponentState) :
  reachable P props s ->
  isSubmitting s = false /\ isTokenValid s <> Some false /\ attachment_ok s.
Proof.
  induction 1 as [|s e Hr [Hidle [Htok Hatt]]].
  - cbn. repeat split; congruence.
  - destruct (handler_cells e s) as [H1 [H2 _]]. repeat split.
    + auto.
    + destruct H2 as [H2|H2]; rewrite H2; congruence.
    + apply handler_attachment_ok; assumption.
Qed.

Lemma reachable_not_rejected (s : ComponentState) :
  reachable P props s -> token_rejected props s = false.
Proof.
  intros Hr. destruct (reachable_invariant s Hr) as [_ [Htok _]].
  unfold token_rejected. destruct (isTokenValid s) as [[|]|];
    try congruence; apply andb_false_r.
Qed.

(** In a reachable state the submit button is enabled. *)
Lemma reachable_submit_enabled (s : ComponentState) :
  reachable P props s -> isSubmitDisabled props s = false.
Proof.
  intros Hr. unfold isSubmitDisabled.
  destruct (reachable_invariant s Hr) as [Hidle _].
  rewrite Hidle, (reachable_not_rejected s Hr). reflexivity.
Qed.

Lemma reachable_run_events (es : list Event) (s : ComponentState) :
  reachable P props s -> reachable P props (run_events P props es s).
Proof.
  revert s. induction es as [|e es IH]; intros s Hr; cbn.
  - exact Hr.
  - apply IH. apply reachable_step. exact Hr.
Qed.

End Invariants.

Lemma example_state_reachable :
  reachable example_platform (destructure example_page) example_state.
Proof.
  change example_state
    with (run_events example_platform (destructure example_page)
            example_events initial_state).
  apply reachable_run_events. apply reachable_initial.
Qed.

Lemma example_record_valid : field_rules example_platform example_record.
Proof. apply accepts_iff. reflexivity. Qed.

(** ** What a run of [onSubmit] shows and sends *)

Section Observations.

Variable P : Platform.
Variable props : Props.

Lemma onSubmit_completes (data : FormData) (net : Network)
  (s : ComponentState) :
  completion_of (onSubmit P props data net) s = Normal tt.
Proof.
  unfold completion_of. destruct (token_rejected props s) eqn:Hg.
  - rewrite onSubmit_rejected by assumption. reflexivity.
  - rewrite onSubmit_run by assumption.
    destruct (guarded_submission_run P props data (selectedFile s) net
                (setIsSubmitting true s)) as [[tail [d [Hrun _]]]|Hrun];
      rewrite Hrun; reflexivity.
Qed.

Lemma onSubmit_idle (data : FormData) (net : Network) (s : ComponentState) :
  token_rejected props s = false ->
  isSubmitting (state_after (onSubmit P props data net) s) = false.
Proof.
  intros Hg. destruct (onSubmit_state P props data net s) as [[H _]|[_ H]].
  - congruence.
  - destruct H as [H|H]; rewrite H; reflexivity.
Qed.

(** The effects of a run that passes the token gate: the loading toast,
    the abort timer, one request, and then either one failure toast or the
    effects of the success path. *)
Lemma onSubmit_effects (data : FormData) (net : Network)
  (s : ComponentState) :
  token_rejected props s = false ->
  let log := effects_of (onSubmit P props data net) s in
  (exists tail d,
      log = ShowToast (loading_toast)
            :: request_log P props data (selectedFile s)
            ++ tail ++ [ShowToast (failure_toast d)]
      /\ (tail = [RequestAborted] \/ tail = []
          \/ tail = [ClearTimeout AbortController]))
  \/ log = ShowToast (loading_toast)
           :: request_log P props data (selectedFile s) ++ success_log.
Proof.
  intros Hg. cbv zeta. unfold effects_of. rewrite onSubmit_run by assumption.
  destruct (guarded_submission_run P props data (selectedFile s) net
              (setIsSubmitting true s)) as [[tail [d [Hrun Ht]]]|Hrun];
    rewrite Hrun; cbn [fst snd]; [left|right].
  - exists tail, d. split; [reflexivity|exact Ht].
  - reflexivity.
Qed.

(** A run whose request is answered in time clears the abort timer right
    after the request; nothing is aborted. *)
Lemma onSubmit_answered (data : FormData) (net : Network)
  (s : ComponentState) (r : Response) :
  token_rejected props s = false ->
  timer_fires 30000 net = false ->
  settlement net = Resolves r ->
  exists rest,
    effects_of (onSubmit P props data net) s
    = ShowToast loading_toast
      :: request_log P props data (selectedFile s)
      ++ ClearTimeout AbortController :: rest
    /\ ~ In RequestAborted rest.
Proof.
  intros Hg Ht Hs. unfold effects_of. rewrite onSubmit_run by assumption.
  destruct (ok r) eqn:Hok.
  - destruct (response_json_run P r (setIsSubmitting true s))
      as [[v Hv]|[e He]].
    + rewrite (run_success P props data (selectedFile s) net _ r v
                 Ht Hs Hok Hv).
      eexists. split; [reflexivity|].
      cbn. intros [H|[H|[H|H]]]; try discriminate H. exact H.
    + rewrite (run_bad_success_body P props data (selectedFile s) net _ r e
                 Ht Hs Hok He).
      eexists. split; [reflexivity|].
      cbn. intros [H|H]; [discriminate H|exact H].
  - destruct (read_error_message_pure P r (setIsSubmitting true s))
      as [v Hv].
    rewrite (run_server_error P props data (selectedFile s) net _ r v
               Ht Hs Hok Hv).
    eexists. split; [reflexivity|].
    cbn. intros [H|H]; [discriminate H|exact H].
Qed.

(** A run that passes the token gate issues exactly one request. *)
Lemma onSubmit_posts (data : FormData) (net : Network) (s : ComponentState) :
  token_rejected props s = false ->
  posts (effects_of (onSubmit P props data net) s)
  = [HttpPost (endpoint P) (build_formData P props data (selectedFile s))].
Proof.
  intros Hg.
  destruct (onSubmit_effects data net s Hg) as [[tail [d [Hlog Ht]]]|Hlog];
    rewrite Hlog; unfold request_log, success_log.
  - destruct Ht as [->|[->| ->]]; reflexivity.
  - reflexivity.
Qed.

(** The names of the fields of the multipart body. *)
Lemma build_formData_names (data : FormData) (file : option File) :
  map fst (build_formData P props data file)
  = [js "firstName"; js "lastName"; js "email"; js "phone"; js "address"]
    ++ (if truthy (token props) then [js "token"] else [])
    ++ (if 0 <? List.length (missingFields props)
        then [js "missingFields"] else [])
    ++ (match file with Some _ => [js "document"] | None => [] end).
Proof.
  unfold build_formData, entries.
  destruct (truthy (token props)), (0 <? List.length (missingFields props)),
    file; reflexivity.
Qed.

End Observations.

Lemma payload_optional_names (P : Platform) (props : Props) (data : FormData)
  (file : option File) :
  (In (js "token") (map fst (build_formData P props data file))
   <-> token props <> [])
  /\ (In (js "missingFields") (map fst (build_formData P props data file))
      <-> missingFields props <> []).
Proof.
  rewrite <- truthy_iff, <- nonempty_iff.
  repeat rewrite In_existsb. rewrite build_formData_names.
  destruct (truthy (token props)), (0 <? List.length (missingFields props)),
    file; vm_compute; repeat split; congruence.
Qed.

Lemma latency_beyond_deadline (net : Network) :
  (30000 < latency net)%N -> timer_fires 30000 net = true.
Proof.
  intros H. unfold timer_fires. apply N.ltb_lt in H. rewrite H. reflexivity.
Qed.

Lemma describe_abort (message : jsstring) :
  describe (ErrorObject (js "AbortError") message) = timeout_message.
Proof. reflexivity. Qed.

Lemma timeout_message_not_status (code : N) :
  timeout_message <> js "Server error! Status: " ++ decimal code.
Proof. intros H. discriminate H. Qed.

(** ** The error message of a failed response *)

Section ServerErrors.

Variable P : Platform.

Lemma get_run (v : json) (k : jsstring) (s : ComponentState) :
  v <> JNull -> get P v k s = (Normal (property v k), s, []).
Proof. intros Hv. destruct v; try reflexivity. congruence. Qed.

Lemma js_or_truthy (d b : json) :
  truthy_value P d = true -> js_or P (Some d) b = d.
Proof. intros H. unfold js_or. rewrite H. reflexivity. Qed.

Lemma js_or_falsy (o : option json) (b : json) :
  falsy P o -> js_or P o b = b.
Proof.
  destruct o as [d|]; cbn; [|reflexivity]. intros H. rewrite H. reflexivity.
Qed.

(** The body decodes to a value other than [null]. *)
Lemma read_error_decoded (r : Response) (s : ComponentState) (t : jsstring)
  (v : json) :
  body r = Readable t -> t <> [] ->
  parse (strip_wrapping_quotes t) = Some v -> v <> JNull ->
  read_error_message P r s
  = (Normal (js_or P (property v (js "detail"))
               (js_or P (property v (js "message"))
                  (JString (stringify P v)))), s, []).
Proof.
  intros Hb Ht Hp Hv. apply truthy_iff in Ht.
  unfold read_error_message, response_text, JSON_parse. rewrite Hb.
  unfold try_catch at 1. unfold bind at 1. unfold ret at 1.
  rewrite Ht. unfold try_catch. unfold bind at 1. rewrite Hp.
  unfold ret at 1. unfold bind at 1. rewrite get_run by assumption.
  unfold bind at 1. rewrite get_run by assumption. reflexivity.
Qed.

(** The body does not decode, or decodes to [null]. *)
Lemma read_error_raw (r : Response) (s : ComponentState) (t : jsstring) :
  body r = Readable t -> t <> [] ->
  parse (strip_wrapping_quotes t) = None
  \/ parse (strip_wrapping_quotes t) = Some JNull ->
  read_error_message P r s = (Normal (JString t), s, []).
Proof.
  intros Hb Ht Hp. apply truthy_iff in Ht.
  unfold read_error_message, response_text, JSON_parse. rewrite Hb.
  unfold try_catch at 1. unfold bind at 1. unfold ret at 1.
  rewrite Ht. unfold or_else. rewrite Ht.
  destruct Hp as [Hp|Hp]; unfold try_catch; unfold bind at 1; rewrite Hp;
    reflexivity.
Qed.

(** The body is empty or cannot be read. *)
Lemma read_error_generic (r : Response) (s : ComponentState) :
  body r = Readable [] \/ (exists e, body r = Unreadable e) ->
  read_error_message P r s
  = (Normal (JString (js "Server error! Status: " ++ decimal (status r))),
     s, []).
Proof.
  intros [Hb|[e Hb]]; unfold read_error_message, response_text; rewrite Hb;
    reflexivity.
Qed.

Lemma property_not_null (v : json) (k : jsstring) (d : json) :
  property v k = Some d -> v <> JNull.
Proof. intros H Hv. subst. discriminate H. Qed.

(** The value of [errorMessage] prints as the message of the
    specification. *)
Lemma read_error_server_message (r : Response) (s : ComponentState)
  (m : jsstring) :
  server_message P r m ->
  exists v, read_error_message P r s = (Normal v, s, [])
            /\ to_string P v = Some m.
Proof.
  intros H. destruct H as [t v d m Hb Ht Hp Hd Htr Hs
                          |t v d m Hb Ht Hp Hd Hm Htr Hs
                          |t v Hb Ht Hp Hv Hd Hm
                          |t Hb Ht Hp
                          |Hb].
  - exists d. split; [|exact Hs].
    rewrite (read_error_decoded r s t v Hb Ht Hp (property_not_null _ _ _ Hd)).
    rewrite Hd. rewrite js_or_truthy by assumption. reflexivity.
  - exists d. split; [|exact Hs].
    rewrite (read_error_decoded r s t v Hb Ht Hp (property_not_null _ _ _ Hm)).
    rewrite js_or_falsy by assumption. rewrite Hm.
    rewrite js_or_truthy by assumption. reflexivity.
  - exists (JString (stringify P v)). split; [|reflexivity].
    rewrite (read_error_decoded r s t v Hb Ht Hp Hv).
    rewrite js_or_falsy by assumption. rewrite js_or_falsy by assumption.
    reflexivity.
  - exists (JString t). split; [|reflexivity].
    apply (read_error_raw r s t Hb Ht Hp).
  - eexists. split; [apply (read_error_generic r s Hb)|reflexivity].
Qed.

Lemma field_truthy_or_falsy (o : option json) :
  (exists d, o = Some d /\ truthy_value P d = true) \/ falsy P o.
Proof.
  destruct o as [d|]; [|right; exact I].
  destruct (truthy_value P d) eqn:Hd.
  - left. exists d. auto.
  - right. exact Hd.
Qed.

(** Every response has a message in the sense of [server_message], unless
    the field to show is an object that cannot be converted to a string. *)
Lemma server_message_or_type_error (r : Response) (s : ComponentState) :
  (exists m, server_message P r m)
  \/ (exists v, read_error_message P r s = (Normal v, s, [])
                /\ to_string P v = None).
Proof.
  destruct (body r) as [t|e] eqn:Hb.
  2:{ left. eexists. apply message_generic. right. exists e. exact Hb. }
  destruct t as [|c t'].
  { left. eexists. apply message_generic. left. exact Hb. }
  assert (Ht : c :: t' <> []) by discriminate.
  destruct (parse (strip_wrapping_quotes (c :: t'))) as [v|] eqn:Hp.
  2:{ left. exists (c :: t'). apply (message_raw P r (c :: t') Hb Ht). auto. }
  assert (Hnull : v = JNull \/ v <> JNull).
  { destruct v; auto; right; discriminate. }
  destruct Hnull as [->|Hv].
  { left. exists (c :: t'). apply (message_raw P r (c :: t') Hb Ht). auto. }
  destruct (field_truthy_or_falsy (property v (js "detail")))
    as [[d [Hd Htd]]|Hd].
  { destruct (to_string P d) as [m|] eqn:Hs.
    - left. exists m.
      apply (message_from_detail P r (c :: t') v d m Hb Ht Hp Hd Htd Hs).
    - right. exists d. split; [|exact Hs].
      rewrite (read_error_decoded r s (c :: t') v Hb Ht Hp Hv).
      rewrite Hd. rewrite js_or_truthy by assumption. reflexivity. }
  destruct (field_truthy_or_falsy (property v (js "message")))
    as [[d [Hm Htm]]|Hm].
  { destruct (to_string P d) as [m|] eqn:Hs.
    - left. exists m.
      apply (message_from_message P r (c :: t') v d m Hb Ht Hp Hd Hm Htm Hs).
    - right. exists d. split; [|exact Hs].
      rewrite (read_error_decoded r s (c :: t') v Hb Ht Hp Hv).
      rewrite js_or_falsy by assumption. rewrite Hm.
      rewrite js_or_truthy by assumption. reflexivity. }
  left. eexists.
  apply (message_from_json P r (c :: t') v Hb Ht Hp Hv Hd Hm).
Qed.

Lemma describe_TypeError (m : jsstring) :
  describe (ErrorObject (js "TypeError") m) = shown_for m.
Proof. reflexivity. Qed.

Lemma describe_Error (m : jsstring) :
  describe (ErrorObject (js "Error") m) = shown_for m.
Proof. reflexivity. Qed.

Variable props : Props.

(** The one error shown after a response with a failure status. *)
Lemma server_error_surfaced (data : FormData) (net : Network)
  (s : ComponentState) (r : Response) (v : json) :
  token_rejected props s = false ->
  timer_fires 30000 net = false ->
  settlement net = Resolves r ->
  ok r = false ->
  read_error_message P r (setIsSubmitting true s)
  = (Normal v, setIsSubmitting true s, []) ->
  surfaced_errors (effects_of (onSubmit P props data net) s)
  = [describe (error_of P v)].
Proof.
  intros Hg Ht Hs Hok Hv. unfold effects_of.
  rewrite onSubmit_run by assumption.
  rewrite (run_server_error P props data (selectedFile s) net _ r v
             Ht Hs Hok Hv).
  reflexivity.
Qed.

End ServerErrors.

(** The branches of the error handling on concrete responses. *)

Example shown_message_field :
  example_errors (responds 400 (jsq "{'message':'bad phone'}"))
  = [js "bad phone"].
Proof. reflexivity. Qed.

Example shown_detail_of_quoted_json :
  example_errors (responds 400 (jsq "'{'detail':'too late'}'"))
  = [js "too late"].
Proof. reflexivity. Qed.

Example shown_json_fallback :
  example_errors (responds 422 (jsq "{'errors':['a']}"))
  = [jsq "{'errors':['a']}"].
Proof. reflexivity. Qed.

Example shown_raw_text :
  example_errors (responds 502 (js "Bad Gateway")) = [js "Bad Gateway"].
Proof. reflexivity. Qed.

Example shown_generic :
  example_errors (responds 500 []) = [js "Server error! Status: 500"].
Proof. reflexivity. Qed.

Example shown_unreadable :
  example_errors
    {| latency := 10; timer_first := false;
       settlement :=
         Resolves {| status := 503;
                     body := Unreadable (ErrorObject (js "TypeError")
                                           (js "network error")) |} |}
  = [js "Server error! Status: 503"].
Proof. reflexivity. Qed.

Example shown_connection_failure :
  example_errors
    {| latency := 10; timer_first := false;
       settlement := Rejects (ErrorObject (js "TypeError")
                                (js "Failed to fetch")) |}
  = [connection_message].
Proof. reflexivity. Qed.

Example shown_list_detail :
  example_errors (responds 422 (jsq "{'detail':[{'loc':'phone'}]}"))
  = [js "[object Object]"].
Proof. reflexivity. Qed.

Lemma not_ok_iff (r : Response) :
  ok r = false <-> ~ (200 <= status r <= 299)%N.
Proof.
  unfold ok. rewrite andb_false_iff. repeat rewrite N.leb_gt. lia.
Qed.

(** ** Validation gates the submission *)

(** C1. The schema accepts a record exactly when the first name and the
    last name have at least 2 characters, the e-mail has the e-mail format,
    the phone number has at least 10 characters and the address at least 5;
    when a record breaks any of these rules, submitting changes nothing
    and issues no HTTP request: the only effect is the display of the
    issues at the fields. *)
Theorem C1_validation_gates_submit (P : Platform) (props : Props)
  (s : ComponentState) (net : Network) :
  (accepts P (values s) = true <-> field_rules P (values s))
  /\ (~ field_rules P (values s) ->
      completion_of (handleSubmit P props net) s = Normal tt
      /\ state_after (handleSubmit P props net) s = s
      /\ posts (effects_of (handleSubmit P props net) s) = []
      /\ effects_of (handleSubmit P props net) s
         = [FieldErrors (formSchema P (values s))]).
Proof.
  split; [apply accepts_iff|].
  intros Hbad. rewrite <- formSchema_nil in Hbad.
  unfold completion_of, state_after, effects_of.
  rewrite handleSubmit_invalid by assumption. cbn. auto.
Qed.

Lemma C1_witness :
  let s := form_setValue FirstName (js "A") example_state in
  let run := handleSubmit example_platform (destructure example_page)
               (responds 200 (js "{}")) in
  ~ field_rules example_platform (values s)
  /\ state_after run s = s
  /\ posts (effects_of run s) = []
  /\ effects_of run s
     = [FieldErrors
          [(FirstName,
            js "Der Vorname muss mindestens 2 Zeichen lang sein.")]].
Proof.
  cbv zeta.
  assert (Hbad : ~ field_rules example_platform
                   (values (form_setValue FirstName (js "A") example_state))).
  { intros [H _]. cbn in H. lia. }
  destruct (C1_validation_gates_submit example_platform
              (destructure example_page)
              (form_setValue FirstName (js "A") example_state)
              (responds 200 (js "{}"))) as [_ Hblocked].
  destruct (Hblocked Hbad) as [_ [Hstate [Hposts Heffects]]].
  split; [exact Hbad|]. split; [exact Hstate|]. split; [exact Hposts|].
  exact Heffects.
Defined.

(** ** Attachments *)

(** C2. A candidate whose MIME type is not one of the six allowed types, or
    whose size exceeds 10 MiB, is rejected with an error toast and the
    state, hence the stored attachment, stays as it was; a candidate that
    satisfies both constraints becomes the stored attachment. *)
Theorem C2_select_attachment (s : ComponentState) (f : File) :
  (~ In (file_type f) allowedTypes \/ (10 * 1024 * 1024 < file_size f)%N ->
   state_after (handleFileChange (Some f)) s = s
   /\ selectedFile (state_after (handleFileChange (Some f)) s)
      = selectedFile s
   /\ exists t, toasts (effects_of (handleFileChange (Some f)) s)
                = [ShowToast t]
                /\ kind t = Failure)
  /\ (In (file_type f) allowedTypes /\ (file_size f <= 10 * 1024 * 1024)%N ->
      selectedFile (state_after (handleFileChange (Some f)) s) = Some f).
Proof.
  unfold state_after, effects_of. split.
  - intros Hbad.
    destruct (type_allowed (file_type f)) eqn:Ht.
    + assert (Hs : (maxSize <? file_size f)%N = true).
      { destruct Hbad as [Hbad|Hbad].
        - apply type_allowed_In in Ht. contradiction.
        - apply N.ltb_lt. exact Hbad. }
      rewrite handleFileChange_too_large by assumption. cbn.
      repeat split; eauto.
    + rewrite handleFileChange_bad_type by assumption. cbn.
      repeat split; eauto.
  - intros [Hin Hsize].
    rewrite handleFileChange_accept.
    + reflexivity.
    + apply type_allowed_In. exact Hin.
    + apply N.leb_le. exact Hsize.
Qed.

Lemma C2_witness :
  selectedFile
    (state_after (handleFileChange (Some oversized_file)) example_state)
  = Some example_file
  /\ selectedFile
       (state_after (handleFileChange (Some example_file)) initial_state)
     = Some example_file.
Proof.
  split.
  - destruct (C2_select_attachment example_state oversized_file)
      as [Hreject _].
    destruct Hreject as [_ [Hsame _]].
    + right. reflexivity.
    + exact Hsame.
  - destruct (C2_select_attachment initial_state example_file)
      as [_ Haccept].
    apply Haccept. split.
    + cbn. auto.
    + cbn. lia.
Defined.

(** C8. In every reachable state a stored attachment has one of the six
    allowed MIME types and at most 10 MiB; every event (file selection,
    removal, field change, submit, and the mount effects) preserves this.
    The constraints are checked at selection only: [onSubmit] sends
    whatever attachment the state holds, without looking at its type or
    size. *)
Theorem C8_attachment_invariant (P : Platform) (props : Props)
  (s : ComponentState) :
  (reachable P props s -> attachment_ok s)
  /\ (forall e : Event,
         attachment_ok s -> attachment_ok (state_after (handler P props e) s))
  /\ (forall (f : File) (data : FormData) (net : Network),
         selectedFile s = Some f ->
         token_rejected props s = false ->
         exists payload,
           posts (effects_of (onSubmit P props data net) s)
           = [HttpPost (endpoint P) payload]
           /\ In (js "document", Blob f) payload).
Proof.
  split; [|split].
  - intros Hr. apply (reachable_invariant P props s Hr).
  - intros e. apply handler_attachment_ok.
  - intros f data net Hf Hg. eexists. split.
    + apply onSubmit_posts. exact Hg.
    + rewrite Hf. unfold build_formData.
      repeat (apply in_or_app; right). left. reflexivity.
Qed.

Lemma C8_witness :
  attachment_ok example_state
  /\ attachment_ok
       (state_after
          (handler example_platform (destructure example_page)
             (FileChange (Some oversized_file))) example_state)
  /\ exists payload,
      posts (effects_of
               (onSubmit example_platform (destructure example_page)
                  example_record (responds 200 (js "{}")))
               (setSelectedFile (Some oversized_file) example_state))
      = [HttpPost (endpoint example_platform) payload]
      /\ In (js "document", Blob oversized_file) payload.
Proof.
  destruct (C8_attachment_invariant example_platform
              (destructure example_page) example_state) as [Hreach [Hstep _]].
  destruct (C8_attachment_invariant example_platform
              (destructure example_page)
              (setSelectedFile (Some oversized_file) example_state))
    as [_ [_ Hsend]].
  split; [apply Hreach; exact example_state_reachable|].
  split.
  - apply Hstep. apply Hreach. exact example_state_reachable.
  - apply Hsend; reflexivity.
Defined.

(** C9. Removing the attachment always leaves no attachment; when none is
    set the state is unchanged and nothing is shown (the only effect is
    the reset of the file input); removing twice is the same as removing
    once. *)
Theorem C9_remove_attachment (s : ComponentState) :
  selectedFile (state_after handleRemoveFile s) = None
  /\ (selectedFile s = None ->
      state_after handleRemoveFile s = s
      /\ effects_of handleRemoveFile s = [ResetFileInput])
  /\ state_after handleRemoveFile (state_after handleRemoveFile s)
     = state_after handleRemoveFile s.
Proof.
  unfold state_after, effects_of, handleRemoveFile. run.
  destruct s as [sub file pre tok cli vals]. destruct file as [f|]; cbn.
  - split; [reflexivity|]. split; [discriminate|reflexivity].
  - split; [reflexivity|]. split; [intros _; split; reflexivity|reflexivity].
Qed.

Lemma C9_witness :
  state_after handleRemoveFile initial_state = initial_state
  /\ effects_of handleRemoveFile initial_state = [ResetFileInput]
  /\ selectedFile (state_after handleRemoveFile example_state) = None.
Proof.
  destruct (C9_remove_attachment initial_state) as [_ [Hnoop _]].
  destruct (Hnoop eq_refl) as [Hstate Heffects].
  destruct (C9_remove_attachment example_state) as [Hcleared _].
  split; [exact Hstate|]. split; [exact Heffects|exact Hcleared].
Defined.

(** ** Submission *)

(** C3, as amended. For every valid record submitted from a reachable
    state and answered in time by a response with a status from 200 to 299
    whose body is readable and valid JSON, the state after the submission
    has every field empty except the e-mail, which is the e-mail supplied
    by the properties (empty when none was supplied), and there is no
    attachment. *)
Theorem C3_reset_after_success (P : Platform) (p : AttractiveFormProps)
  (s : ComponentState) (net : Network) (r : Response) (t : jsstring)
  (v : json) :
  reachable P (destructure p) s ->
  field_rules P (values s) ->
  timer_fires 30000 net = false ->
  settlement net = Resolves r ->
  (200 <= status r <= 299)%N ->
  body r = Readable t ->
  parse t = Some v ->
  let s' := state_after (handleSubmit P (destructure p) net) s in
  values s'
  = {| firstName := []; lastName := [];
       email := match prop_clientEmail p with Some e => e | None => [] end;
       phone := []; address := [] |}
  /\ selectedFile s' = None
  /\ isSubmitting s' = false.
Proof.
  intros Hr Hv Ht Hs Hst Hb Hp. cbv zeta. unfold state_after.
  rewrite handleSubmit_valid by (apply formSchema_nil; exact Hv).
  rewrite onSubmit_run by (apply (reachable_not_rejected P); exact Hr).
  assert (Hok : ok r = true).
  { unfold ok. apply andb_true_intro. split; apply N.leb_le; lia. }
  assert (Hj : response_json P r (setIsSubmitting true s)
               = (Normal v, setIsSubmitting true s, [])).
  { unfold response_json, response_text, JSON_parse. rewrite Hb. run.
    rewrite Hp. reflexivity. }
  rewrite (run_success P (destructure p) (values s) (selectedFile s) net _ r v Ht Hs Hok Hj).
  cbn [fst snd]. unfold after_success, reset_values. cbn.
  rewrite or_else_empty. destruct (prop_clientEmail p); auto.
Qed.

Lemma C3_witness :
  let s' := state_after
              (handleSubmit example_platform (destructure example_page)
                 (responds 200 (jsq "{'ok':true}")))
              example_state in
  values s'
  = {| firstName := []; lastName := []; email := js "anna@example.org";
       phone := []; address := [] |}
  /\ selectedFile s' = None
  /\ isSubmitting s' = false.
Proof.
  apply (C3_reset_after_success example_platform example_page example_state
           (responds 200 (jsq "{'ok':true}"))
           {| status := 200; body := Readable (jsq "{'ok':true}") |}
           (jsq "{'ok':true}")
           (JObject [(js "ok", JBool true)])).
  - exact example_state_reachable.
  - exact example_record_valid.
  - reflexivity.
  - reflexivity.
  - cbn. lia.
  - reflexivity.
  - reflexivity.
Defined.

(** C3, as stated, fails: a valid record answered by status 204 with an
    empty body (which is not JSON) leaves the fields and the attachment in
    place. *)
Lemma C3_counterexample :
  let net := responds 204 [] in
  let s' := state_after
              (handleSubmit example_platform (destructure example_page) net)
              example_state in
  reachable example_platform (destructure example_page) example_state
  /\ field_rules example_platform (values example_state)
  /\ settlement net = Resolves {| status := 204; body := Readable [] |}
  /\ timer_fires 30000 net = false
  /\ values s' = example_record
  /\ selectedFile s' = Some example_file
  /\ ~ (values s'
        = {| firstName := []; lastName := []; email := js "anna@example.org";
             phone := []; address := [] |}
        /\ selectedFile s' = None).
Proof.
  cbv zeta. split; [exact example_state_reachable|].
  split; [exact example_record_valid|].
  repeat (split; [reflexivity|]).
  intros [_ H]. vm_compute in H. discriminate H.
Qed.

(** C4, as amended. For every response with a status outside 200-299,
    received in time by a run of [onSubmit] from a reachable state: the
    message extracted from it is the [detail] field of the body after
    stripping wrapping quotes and JSON-decoding, else the [message] field,
    else the decoded body printed as JSON; the raw body text when decoding
    fails (or yields [null]); a generic message with the status code when
    the body is empty or unreadable.  The one error shown is this message,
    except that a message containing "Failed to fetch" or "Invalid or
    expired token" is replaced by the fixed connection-failure or
    expired-link text.  In particular the body with [detail] "token
    expired" shows "token expired".  Every such response has a message in
    this sense, unless the field to show is an object that cannot be
    converted to a string: the message is then the one of the engine's
    [TypeError]. *)
Theorem C4_error_message (P : Platform) (props : Props) (s : ComponentState)
  (data : FormData) (net : Network) (r : Response) :
  reachable P props s ->
  timer_fires 30000 net = false ->
  settlement net = Resolves r ->
  ~ (200 <= status r <= 299)%N ->
  let shown := surfaced_errors (effects_of (onSubmit P props data net) s) in
  (forall m : jsstring, server_message P r m -> shown = [shown_for m])
  /\ (body r = Readable (jsq "{'detail':'token expired'}") ->
      shown = [js "token expired"])
  /\ ((exists m, server_message P r m)
      \/ shown = [shown_for (type_error_message P)]).
Proof.
  intros Hr Ht Hs Hst. cbv zeta.
  pose proof (reachable_not_rejected P props s Hr) as Hg.
  apply not_ok_iff in Hst.
  assert (Hgen : forall m : jsstring,
             server_message P r m ->
             surfaced_errors (effects_of (onSubmit P props data net) s)
             = [shown_for m]).
  { intros m Hm.
    destruct (read_error_server_message P r (setIsSubmitting true s) m Hm)
      as [v [Hv Hprint]].
    rewrite (server_error_surfaced P props data net s r v Hg Ht Hs Hst Hv).
    unfold error_of. rewrite Hprint. rewrite describe_Error. reflexivity. }
  split; [exact Hgen|]. split.
  - intros Hb.
    rewrite (Hgen (js "token expired")); [reflexivity|].
    apply (message_from_detail P r (jsq "{'detail':'token expired'}")
             (JObject [(js "detail", JString (js "token expired"))])
             (JString (js "token expired")) (js "token expired"));
      try reflexivity; [exact Hb | discriminate].
  - destruct (server_message_or_type_error P r (setIsSubmitting true s))
      as [Hm|[v [Hv Hprint]]]; [left; exact Hm|right].
    rewrite (server_error_surfaced P props data net s r v Hg Ht Hs Hst Hv).
    unfold error_of. rewrite Hprint. rewrite describe_TypeError. reflexivity.
Qed.

Lemma C4_witness :
  surfaced_errors
    (effects_of
       (onSubmit example_platform (destructure example_page) example_record
          (responds 401 (jsq "{'detail':'token expired'}"))) example_state)
  = [js "token expired"].
Proof.
  destruct (C4_error_message example_platform (destructure example_page)
              example_state example_record
              (responds 401 (jsq "{'detail':'token expired'}"))
              {| status := 401;
                 body := Readable (jsq "{'detail':'token expired'}") |})
    as [_ [Hparticular _]].
  - exact example_state_reachable.
  - reflexivity.
  - reflexivity.
  - cbn. lia.
  - apply Hparticular. reflexivity.
Defined.

(** C4, as stated, fails: when the [detail] field is "Invalid or expired
    token", the error shown is not that text but the fixed expired-link
    text. *)
Lemma C4_counterexample :
  let text := jsq "{'detail':'Invalid or expired token'}" in
  let shown := surfaced_errors
                 (effects_of
                    (onSubmit example_platform (destructure example_page)
                       example_record (responds 401 text)) example_state) in
  option_map (fun v => property v (js "detail"))
    (parse (strip_wrapping_quotes text))
  = Some (Some (JString (js "Invalid or expired token")))
  /\ shown = [expired_link_message]
  /\ shown <> [js "Invalid or expired token"].
Proof.
  cbv zeta. split; [reflexivity|]. split; [reflexivity|].
  intros H. vm_compute in H. discriminate H.
Qed.

(** C5. From every reachable state, a run of [onSubmit] (and so of the
    validated submit) completes without an exception escaping and leaves
    [isSubmitting] false, whatever the network does.  More precisely, for
    any state: a run that passes the token gate sets the flag, and its
    [finally] clears it; a run that the token gate aborts leaves the state
    as it was. *)
Theorem C5_idle_after_submit (P : Platform) (props : Props)
  (s : ComponentState) (data : FormData) (net : Network) :
  (reachable P props s ->
   completion_of (onSubmit P props data net) s = Normal tt
   /\ isSubmitting (state_after (onSubmit P props data net) s) = false
   /\ isSubmitting (state_after (handleSubmit P props net) s) = false)
  /\ (token_rejected props s = false ->
      isSubmitting (state_after begin_submission s) = true
      /\ completion_of (onSubmit P props data net) s = Normal tt
      /\ isSubmitting (state_after (onSubmit P props data net) s) = false)
  /\ (token_rejected props s = true ->
      completion_of (onSubmit P props data net) s = Normal tt
      /\ state_after (onSubmit P props data net) s = s).
Proof.
  split; [|split].
  - intros Hr. split; [apply onSubmit_completes|]. split.
    + apply onSubmit_idle. apply (reachable_not_rejected P). exact Hr.
    + apply (reachable_invariant P props _
               (reachable_step P props s (Submit net) Hr)).
  - intros Hg. split; [reflexivity|]. split.
    + apply onSubmit_completes.
    + apply onSubmit_idle. exact Hg.
  - intros Hg. split; [apply onSubmit_completes|].
    unfold state_after. rewrite onSubmit_rejected by assumption. reflexivity.
Qed.

Lemma C5_witness :
  isSubmitting
    (state_after
       (onSubmit example_platform (destructure example_page) example_record
          (responds 500 (js "oops")))
       example_state) = false.
Proof.
  destruct (C5_idle_after_submit example_platform (destructure example_page)
              example_state example_record (responds 500 (js "oops")))
    as [Hreachable _].
  apply Hreachable. exact example_state_reachable.
Defined.

(** C6. A run of [onSubmit] from a reachable state arms an abort timer of
    30000 ms and issues exactly one HTTP POST, to the endpoint.  When the
    network takes longer than 30000 ms the request is aborted, the one
    error shown is the timeout message, which differs from the generic,
    the connection-failure, the expired-link and the server-status
    messages, and the form is idle again.  The deadline bounds the wait
    for the response: once [fetch] has resolved in time the timer is
    cleared, before the body is read, and nothing is aborted. *)
Theorem C6_one_request_with_deadline (P : Platform) (props : Props)
  (s : ComponentState) (data : FormData) (net : Network) :
  reachable P props s ->
  let log := effects_of (onSubmit P props data net) s in
  posts log
  = [HttpPost (endpoint P) (build_formData P props data (selectedFile s))]
  /\ In (SetTimeout AbortController 30000) log
  /\ ((30000 < latency net)%N ->
      In RequestAborted log
      /\ surfaced_errors log = [timeout_message]
      /\ isSubmitting (state_after (onSubmit P props data net) s) = false)
  /\ (forall r : Response,
         timer_fires 30000 net = false -> settlement net = Resolves r ->
         In (ClearTimeout AbortController) log /\ ~ In RequestAborted log)
  /\ timeout_message <> generic_message
  /\ timeout_message <> connection_message
  /\ timeout_message <> expired_link_message
  /\ (forall code : N,
         timeout_message <> js "Server error! Status: " ++ decimal code).
Proof.
  intros Hr. cbv zeta.
  pose proof (reachable_not_rejected P props s Hr) as Hg.
  split; [apply onSubmit_posts; exact Hg|]. split.
  - destruct (onSubmit_effects P props data net s Hg)
      as [[tail [d [Hlog _]]]|Hlog]; rewrite Hlog; cbn; auto.
  - split.
    + intros Hlate. apply latency_beyond_deadline in Hlate.
      unfold effects_of. rewrite onSubmit_run by assumption.
      rewrite run_timeout by assumption. cbn [fst snd].
      rewrite describe_abort. split; [cbn; auto|].
      split; [reflexivity|]. apply onSubmit_idle. exact Hg.
    + split.
      * intros r Ht Hs.
        destruct (onSubmit_answered P props data net s r Hg Ht Hs)
          as [rest [Hlog Hrest]].
        rewrite Hlog. split.
        -- cbn. auto.
        -- cbn. intros [H|[H|[H|[H|H]]]]; try discriminate H.
           exact (Hrest H).
      * repeat split; try apply timeout_message_not_status;
          intros H; vm_compute in H; discriminate H.
Qed.

Lemma C6_witness :
  let net := {| latency := 45000; timer_first := false;
                settlement :=
                  Resolves {| status := 200; body := Readable (js "{}") |} |} in
  let log := effects_of
               (onSubmit example_platform (destructure example_page)
                  example_record net) example_state in
  List.length (posts log) = 1
  /\ surfaced_errors log = [timeout_message].
Proof.
  cbv zeta.
  destruct (C6_one_request_with_deadline example_platform
              (destructure example_page) example_state example_record
              {| latency := 45000; timer_first := false;
                 settlement :=
                   Resolves {| status := 200; body := Readable (js "{}") |} |}
              example_state_reachable)
    as [Hposts [_ [Hlate _]]].
  split.
  - rewrite Hposts. reflexivity.
  - apply Hlate. reflexivity.
Defined.

(** ** The token *)

(** C7. When a token is supplied and the state says it is invalid,
    [onSubmit] only shows the "invalid link" error: the state is unchanged
    and no request is issued.  But the token effect declares every token
    valid, no reachable state holds an invalid token, and so from a
    reachable state the gate never aborts: the request is issued. *)
Theorem C7_token_gate_is_dormant (P : Platform) (props : Props)
  (s : ComponentState) (data : FormData) (net : Network) :
  (token props <> [] -> isTokenValid s = Some false ->
   onSubmit P props data net s
   = (Normal tt, s, [ShowToast invalid_link_toast])
   /\ posts (effects_of (onSubmit P props data net) s) = [])
  /\ (isClient s = true ->
      isTokenValid (state_after (effect_token) s) = Some true)
  /\ (reachable P props s ->
      isTokenValid s <> Some false
      /\ token_rejected props s = false
      /\ posts (effects_of (onSubmit P props data net) s)
         = [HttpPost (endpoint P)
              (build_formData P props data (selectedFile s))]).
Proof.
  split; [|split].
  - intros Htok Hinv.
    assert (Hg : token_rejected props s = true).
    { unfold token_rejected. rewrite Hinv.
      apply truthy_iff in Htok. rewrite Htok. reflexivity. }
    unfold effects_of. rewrite onSubmit_rejected by assumption.
    split; reflexivity.
  - intros Hc. unfold state_after, effect_token. run. rewrite Hc. reflexivity.
  - intros Hr. destruct (reachable_invariant P props s Hr) as [_ [Htok _]].
    pose proof (reachable_not_rejected P props s Hr) as Hg.
    split; [exact Htok|]. split; [exact Hg|].
    apply onSubmit_posts. exact Hg.
Qed.

Lemma C7_witness :
  let invalid := setIsTokenValid (Some false) example_state in
  onSubmit example_platform (destructure example_page) example_record
    (responds 200 (js "{}")) invalid
  = (Normal tt, invalid, [ShowToast invalid_link_toast])
  /\ isTokenValid example_state <> Some false.
Proof.
  cbv zeta. split.
  - destruct (C7_token_gate_is_dormant example_platform
                (destructure example_page)
                (setIsTokenValid (Some false) example_state) example_record
                (responds 200 (js "{}"))) as [Hgate _].
    apply Hgate.
    + discriminate.
    + reflexivity.
  - destruct (C7_token_gate_is_dormant example_platform
                (destructure example_page) example_state example_record
                (responds 200 (js "{}"))) as [_ [_ Hreach]].
    apply Hreach. exact example_state_reachable.
Defined.

(** C10. With the empty string as token (the default when the property is
    absent) [onSubmit] runs exactly as with no token property at all: the
    token gate does not abort, whatever the validity cell says, and the
    payload has no [token] field.  In general the payload of a run that
    passes the gate has a [token] field exactly when the token is not
    empty, and a [missingFields] field exactly when the list of missing
    fields is not empty. *)
Theorem C10_empty_token_and_missing_fields (P : Platform)
  (p : AttractiveFormProps) (s : ComponentState) (data : FormData)
  (net : Network) :
  let absent := {| prop_clientEmail := prop_clientEmail p;
                   prop_token := None;
                   prop_missingFields := prop_missingFields p |} in
  let empty := {| prop_clientEmail := prop_clientEmail p;
                  prop_token := Some [];
                  prop_missingFields := prop_missingFields p |} in
  onSubmit P (destructure empty) data net s
  = onSubmit P (destructure absent) data net s
  /\ token_rejected (destructure empty) s = false
  /\ (exists payload,
         posts (effects_of (onSubmit P (destructure empty) data net) s)
         = [HttpPost (endpoint P) payload]
         /\ ~ In (js "token") (map fst payload))
  /\ (forall props : Props,
         token_rejected props s = false ->
         exists payload,
           posts (effects_of (onSubmit P props data net) s)
           = [HttpPost (endpoint P) payload]
           /\ (In (js "token") (map fst payload) <-> token props <> [])
           /\ (In (js "missingFields") (map fst payload)
               <-> missingFields props <> [])).
Proof.
  cbv zeta. split; [reflexivity|]. split; [reflexivity|]. split.
  - eexists. split; [apply onSubmit_posts; reflexivity|].
    intros Hin. apply payload_optional_names in Hin. apply Hin. reflexivity.
  - intros props Hg. eexists. split; [apply onSubmit_posts; exact Hg|].
    apply payload_optional_names.
Qed.

Lemma C10_witness :
  exists payload,
    posts (effects_of
             (onSubmit example_platform (destructure example_page)
                example_record (responds 200 (js "{}"))) example_state)
    = [HttpPost (endpoint example_platform) payload]
    /\ In (js "token") (map fst payload)
    /\ In (js "missingFields") (map fst payload).
Proof.
  destruct (C10_empty_token_and_missing_fields example_platform example_page
              example_state example_record (responds 200 (js "{}")))
    as [_ [_ [_ Hgeneral]]].
  destruct (Hgeneral (destructure example_page)) as [payload [Hp [Ht Hm]]].
  - reflexivity.
  - exists payload. split; [exact Hp|]. split.
    + apply Ht. discriminate.
    + apply Hm. discriminate.
Defined.

(** ** The two outcomes of a submission *)

Section Outcomes.

Variable P : Platform.
Variable props : Props.

Lemma not_answered_cases (net : Network) :
  answered_with_success net = false ->
  timer_fires 30000 net = true
  \/ (timer_fires 30000 net = false
      /\ ((exists e, settlement net = Rejects e)
          \/ (exists r, settlement net = Resolves r /\ ok r = false)
          \/ (exists r e, settlement net = Resolves r /\ ok r = true
                          /\ forall s, response_json P r s = (Throw e, s, [])))).
Proof.
  unfold answered_with_success. intros H.
  destruct (timer_fires 30000 net); [left; reflexivity|right].
  split; [reflexivity|]. cbn in H.
  destruct (settlement net) as [r|e]; [|left; eauto].
  right. destruct (ok r) eqn:Hok; [|left; eauto].
  right. cbn in H.
  destruct (body r) as [t|e] eqn:Hb.
  - destruct (parse t) eqn:Hp; [discriminate H|].
    exists r, (ErrorObject (js "SyntaxError") (syntax_error_message P t)).
    split; [reflexivity|]. split; [exact Hok|]. intros s.
    unfold response_json, response_text, JSON_parse, bind, ret, throw.
    rewrite Hb, Hp. reflexivity.
  - exists r, e. split; [reflexivity|]. split; [exact Hok|]. intros s.
    unfold response_json, response_text, bind, throw. rewrite Hb.
    reflexivity.
Qed.

(** The run of [onSubmit] on a request answered with success. *)
Lemma onSubmit_success (data : FormData) (net : Network)
  (s : ComponentState) :
  token_rejected props s = false ->
  answered_with_success net = true ->
  onSubmit P props data net s
  = (Normal tt, setIsSubmitting false (after_success props s),
     ShowToast loading_toast
     :: request_log P props data (selectedFile s) ++ success_log).
Proof.
  intros Hg H. unfold answered_with_success in H.
  apply andb_true_iff in H. destruct H as [Ht H].
  apply negb_true_iff in Ht.
  destruct (settlement net) as [r|e] eqn:Hs; [|discriminate H].
  apply andb_true_iff in H. destruct H as [Hok H].
  destruct (body r) as [t|e] eqn:Hb; [|discriminate H].
  destruct (parse t) as [v|] eqn:Hp; [|discriminate H].
  assert (Hj : response_json P r (setIsSubmitting true s)
               = (Normal v, setIsSubmitting true s, [])).
  { unfold response_json, response_text, JSON_parse. rewrite Hb.
    unfold bind, ret. rewrite Hp. reflexivity. }
  rewrite onSubmit_run by assumption.
  rewrite (run_success P props data (selectedFile s) net _ r v Ht Hs Hok Hj).
  reflexivity.
Qed.

(** The run of [onSubmit] on any other request. *)
Lemma onSubmit_failure (data : FormData) (net : Network)
  (s : ComponentState) :
  token_rejected props s = false ->
  answered_with_success net = false ->
  exists tail d,
    onSubmit P props data net s
    = (Normal tt, setIsSubmitting false s,
       ShowToast loading_toast
       :: request_log P props data (selectedFile s)
       ++ tail ++ [ShowToast (failure_toast d)])
    /\ (tail = [RequestAborted] \/ tail = []
        \/ tail = [ClearTimeout AbortController]).
Proof.
  intros Hg H. rewrite onSubmit_run by assumption.
  destruct (not_answered_cases net H)
    as [Ht|[Ht [[e Hs]|[[r [Hs Hok]]|[r [e [Hs [Hok Hj]]]]]]]].
  - rewrite run_timeout by assumption.
    exists [RequestAborted]. eexists. split; [reflexivity|auto].
  - rewrite (run_rejected P props data (selectedFile s) net _ e Ht Hs).
    exists []. eexists. split; [reflexivity|auto].
  - destruct (read_error_message_pure P r (setIsSubmitting true s)) as [v Hv].
    rewrite (run_server_error P props data (selectedFile s) net _ r v
               Ht Hs Hok Hv).
    exists [ClearTimeout AbortController]. eexists.
    split; [reflexivity|auto].
  - rewrite (run_bad_success_body P props data (selectedFile s) net _ r e
               Ht Hs Hok (Hj _)).
    exists [ClearTimeout AbortController]. eexists.
    split; [reflexivity|auto].
Qed.

End Outcomes.

Lemma setIsSubmitting_idle (s : ComponentState) :
  isSubmitting s = false -> setIsSubmitting false s = s.
Proof. destruct s. cbn. intros ->. reflexivity. Qed.

(** X1. A run of [onSubmit] that passes the token gate schedules the
    redirect to the success page, and shows the success toast, exactly
    when the request is answered in time with a status from 200 to 299 and
    a readable JSON body; then no error is shown.  In every other case
    exactly one error is shown. *)
Theorem redirect_exactly_on_success (P : Platform) (props : Props)
  (s : ComponentState) (data : FormData) (net : Network) :
  token_rejected props s = false ->
  let log := effects_of (onSubmit P props data net) s in
  (In (SetTimeout GoToSuccess 2000) log <-> answered_with_success net = true)
  /\ (In (ShowToast success_toast) log <-> answered_with_success net = true)
  /\ (answered_with_success net = true -> surfaced_errors log = [])
  /\ (answered_with_success net = false ->
      exists d, surfaced_errors log = [d]).
Proof.
  intros Hg. cbv zeta. unfold effects_of.
  destruct (answered_with_success net) eqn:Ha.
  - rewrite onSubmit_success by assumption. cbn [snd].
    unfold request_log, success_log.
    split; [split; [reflexivity|intros _; cbn; auto 10]|].
    split; [split; [reflexivity|intros _; cbn; auto 10]|].
    split; [reflexivity|discriminate].
  - destruct (onSubmit_failure P props data net s Hg Ha)
      as [tail [d [Hrun Htail]]].
    rewrite Hrun. cbn [snd]. unfold request_log.
    assert (Hno : forall e : Effect,
               e = SetTimeout GoToSuccess 2000 \/ e = ShowToast success_toast ->
               ~ In e (ShowToast loading_toast
                         :: [SetTimeout AbortController 30000;
                             HttpPost (endpoint P)
                               (build_formData P props data (selectedFile s))]
                         ++ tail ++ [ShowToast (failure_toast d)])).
    { intros e He Hin. cbn in Hin.
      destruct Htail as [->|[->| ->]]; cbn in Hin;
        destruct He as [-> | ->];
        repeat (destruct Hin as [Hin|Hin]; [discriminate Hin|]);
        exact Hin. }
    split.
    { split; [|discriminate]. intros Hin. exfalso.
      exact (Hno _ (or_introl eq_refl) Hin). }
    split.
    { split; [|discriminate]. intros Hin. exfalso.
      exact (Hno _ (or_intror eq_refl) Hin). }
    split; [discriminate|]. intros _. exists d.
    destruct Htail as [->|[->| ->]]; reflexivity.
Qed.

Lemma redirect_exactly_on_success_witness :
  let log := effects_of
               (onSubmit example_platform (destructure example_page)
                  example_record (responds 200 (js "{}"))) example_state in
  In (SetTimeout GoToSuccess 2000) log
  /\ surfaced_errors log = [].
Proof.
  cbv zeta.
  destruct (redirect_exactly_on_success example_platform
              (destructure example_page) example_state example_record
              (responds 200 (js "{}")) eq_refl) as [Hredirect [_ [Hquiet _]]].
  split.
  - apply Hredirect. reflexivity.
  - apply Hquiet. reflexivity.
Defined.

(** X2. From a reachable state, a submission that is not answered with
    success leaves the whole state as it was: the values, the attachment
    and every flag; so submitting again behaves as if the failed attempt
    had not happened. *)
Theorem failed_submit_keeps_state (P : Platform) (props : Props)
  (s : ComponentState) (net net' : Network) :
  reachable P props s ->
  answered_with_success net = false ->
  state_after (handleSubmit P props net) s = s
  /\ handleSubmit P props net' (state_after (handleSubmit P props net) s)
     = handleSubmit P props net' s.
Proof.
  intros Hr Ha.
  assert (Hsame : state_after (handleSubmit P props net) s = s).
  { unfold state_after.
    destruct (formSchema P (values s)) as [|issue issues] eqn:Hv.
    - rewrite handleSubmit_valid by assumption.
      destruct (onSubmit_failure P props (values s) net s
                  (reachable_not_rejected P props s Hr) Ha)
        as [tail [d [Hrun _]]].
      rewrite Hrun. cbn [fst snd]. apply setIsSubmitting_idle.
      apply (reachable_invariant P props s Hr).
    - rewrite handleSubmit_invalid by congruence. reflexivity. }
  split; [exact Hsame|]. rewrite Hsame. reflexivity.
Qed.

Lemma failed_submit_keeps_state_witness :
  state_after
    (handleSubmit example_platform (destructure example_page)
       (responds 500 (js "down"))) example_state
  = example_state.
Proof.
  apply (failed_submit_keeps_state example_platform (destructure example_page)
           example_state (responds 500 (js "down")) (responds 200 (js "{}"))).
  - exact example_state_reachable.
  - reflexivity.
Defined.

(** X3. A run of [onSubmit] that passes the token gate shows exactly two
    toasts: the loading toast, then one toast that carries the identifier
    of the loading toast (and so replaces it) and is a success or an error
    toast. *)
Theorem loading_toast_is_replaced (P : Platform) (props : Props)
  (s : ComponentState) (data : FormData) (net : Network) :
  token_rejected props s = false ->
  exists outcome : Toast,
    toasts (effects_of (onSubmit P props data net) s)
    = [ShowToast loading_toast; ShowToast outcome]
    /\ updates_loading outcome = true
    /\ (kind outcome = Success \/ kind outcome = Failure).
Proof.
  intros Hg. unfold effects_of.
  destruct (answered_with_success net) eqn:Ha.
  - rewrite onSubmit_success by assumption. exists success_toast.
    repeat split. left. reflexivity.
  - destruct (onSubmit_failure P props data net s Hg Ha)
      as [tail [d [Hrun Htail]]].
    rewrite Hrun. exists (failure_toast d).
    destruct Htail as [->|[->| ->]]; repeat split; right; reflexivity.
Qed.

Lemma loading_toast_is_replaced_witness :
  exists outcome : Toast,
    toasts (effects_of
              (onSubmit example_platform (destructure example_page)
                 example_record (responds 404 (js "gone"))) example_state)
    = [ShowToast loading_toast; ShowToast outcome]
    /\ updates_loading outcome = true
    /\ (kind outcome = Success \/ kind outcome = Failure).
Proof.
  apply (loading_toast_is_replaced example_platform
           (destructure example_page) example_state example_record
           (responds 404 (js "gone"))).
  reflexivity.
Defined.

(** X4. After a submission answered with success the form cannot be sent
    a second time as it stands: the reset has emptied the first name, the
    schema rejects the values, and a further submit issues no request and
    changes nothing. *)
Theorem no_second_request_after_success (P : Platform) (props : Props)
  (s : ComponentState) (data : FormData) (net net' : Network) :
  token_rejected props s = false ->
  answered_with_success net = true ->
  let s' := state_after (onSubmit P props data net) s in
  posts (effects_of (handleSubmit P props net') s') = []
  /\ state_after (handleSubmit P props net') s' = s'.
Proof.
  intros Hg Ha. cbv zeta. unfold state_after at 1 3 4.
  rewrite onSubmit_success by assumption. cbn [fst snd].
  unfold state_after, effects_of.
  rewrite handleSubmit_invalid; [split; reflexivity|].
  cbn. discriminate.
Qed.

Lemma no_second_request_after_success_witness :
  let s' := state_after
              (onSubmit example_platform (destructure example_page)
                 example_record (responds 200 (js "{}"))) example_state in
  posts (effects_of
           (handleSubmit example_platform (destructure example_page)
              (responds 200 (js "{}"))) s') = []
  /\ state_after
       (handleSubmit example_platform (destructure example_page)
          (responds 200 (js "{}"))) s' = s'.
Proof.
  apply (no_second_request_after_success example_platform
           (destructure example_page) example_state example_record
           (responds 200 (js "{}")) (responds 200 (js "{}")));
    reflexivity.
Defined.

(** ** What the handlers never do *)

Lemma handleFileChange_run (c : option File) (s : ComponentState) :
  exists log,
    handleFileChange c s
    = (Normal tt,
       match c with
       | Some f => if acceptable f then setSelectedFile (Some f) s else s
       | None => s
       end, log)
    /\ posts log = [].
Proof.
  destruct c as [f|]; [|exists []; split; reflexivity].
  unfold acceptable.
  destruct (type_allowed (file_type f)) eqn:Ht.
  - destruct (file_size f <=? maxSize)%N eqn:Hs.
    + rewrite handleFileChange_accept by assumption.
      eexists. split; reflexivity.
    + rewrite handleFileChange_too_large;
        [eexists; split; reflexivity|assumption|].
      apply N.ltb_lt. apply N.leb_gt in Hs. exact Hs.
  - rewrite handleFileChange_bad_type by assumption.
    eexists. split; reflexivity.
Qed.

(** X5. No handler of the component lets an exception escape, whatever
    the network does.  Only a submit issues an HTTP request, at most one,
    and only on values that satisfy the field rules and past the token
    gate: field changes, file selection, file removal and the mount
    effects never touch the network. *)
Theorem only_valid_submit_posts (P : Platform) (props : Props) (e : Event)
  (s : ComponentState) :
  completion_of (handler P props e) s = Normal tt
  /\ List.length (posts (effects_of (handler P props e) s)) <= 1
  /\ (posts (effects_of (handler P props e) s) <> [] ->
      exists net, e = Submit net
                  /\ field_rules P (values s)
                  /\ token_rejected props s = false).
Proof.
  unfold completion_of, effects_of.
  destruct e as [ | | |f v|c| |net]; cbn [handler].
  - cbn. repeat split; auto. congruence.
  - unfold effect_email. run.
    destruct (isClient s && truthy (clientEmail props)); cbn;
      repeat split; auto; congruence.
  - unfold effect_token. run.
    destruct (negb (isClient s)); cbn; repeat split; auto; congruence.
  - cbn. repeat split; auto. congruence.
  - destruct (handleFileChange_run c s) as [log [Hrun Hposts]].
    rewrite Hrun. cbn [fst snd]. rewrite Hposts.
    repeat split; auto. congruence.
  - unfold handleRemoveFile. run.
    destruct (selectedFile s); cbn; repeat split; auto; congruence.
  - destruct (formSchema P (values s)) as [|issue issues] eqn:Hv.
    + rewrite handleSubmit_valid by assumption.
      pose proof (onSubmit_completes P props (values s) net s) as Hc.
      unfold completion_of in Hc. split; [exact Hc|].
      destruct (token_rejected props s) eqn:Hg.
      * rewrite onSubmit_rejected by assumption. cbn.
        split; [lia|congruence].
      * pose proof (onSubmit_posts P props (values s) net s Hg) as Hp.
        unfold effects_of in Hp. rewrite Hp. cbn. split; [lia|].
        intros _. exists net. split; [reflexivity|].
        split; [apply formSchema_nil; exact Hv|reflexivity].
    + rewrite handleSubmit_invalid by congruence. cbn.
      split; [reflexivity|]. split; [lia|congruence].
Qed.

Lemma only_valid_submit_posts_witness :
  completion_of
    (handler example_platform (destructure example_page)
       (Submit (responds 502 (js "Bad Gateway")))) example_state
  = Normal tt
  /\ List.length
       (posts (effects_of
                 (handler example_platform (destructure example_page)
                    (Submit (responds 502 (js "Bad Gateway"))))
                 example_state)) <= 1.
Proof.
  destruct (only_valid_submit_posts example_platform
              (destructure example_page)
              (Submit (responds 502 (js "Bad Gateway"))) example_state)
    as [Hcompletes [Hcount _]].
  split; [exact Hcompletes|exact Hcount].
Defined.

(** ** A series of file selections *)

Lemma setSelectedFile_same (s : ComponentState) :
  setSelectedFile (selectedFile s) s = s.
Proof. destruct s. reflexivity. Qed.

(** X6. After any series of file selections (cancelled dialogs included)
    the attachment is the last candidate that passed both checks, or the
    attachment there was before when none passed; nothing else of the
    state has changed.  Removing the attachment afterwards gives the state
    in which nothing was ever attached. *)
Theorem last_acceptable_selection_wins (candidates : list (option File))
  (s : ComponentState) :
  select_all candidates s
  = setSelectedFile (last_acceptable candidates (selectedFile s)) s
  /\ state_after handleRemoveFile (select_all candidates s)
     = setSelectedFile None s.
Proof.
  assert (Hall : forall cs st,
             select_all cs st
             = setSelectedFile (last_acceptable cs (selectedFile st)) st).
  { unfold select_all, last_acceptable.
    induction cs as [|c cs IH]; intros st; cbn [fold_left].
    - symmetry. apply setSelectedFile_same.
    - rewrite IH. unfold state_after.
      destruct (handleFileChange_run c st) as [log [Hrun _]]. rewrite Hrun.
      cbn [fst snd]. destruct c as [f|]; [|reflexivity].
      destruct (acceptable f); reflexivity. }
  split; [apply Hall|]. rewrite Hall.
  unfold state_after, handleRemoveFile. run.
  destruct (last_acceptable candidates (selectedFile s)); reflexivity.
Qed.

(** ** What the page sends *)

Lemma field_value_app (name : jsstring) (a b : list (jsstring * FormValue)) :
  field_value name (a ++ b)
  = match field_value name a with
    | Some v => Some v
    | None => field_value name b
    end.
Proof.
  induction a as [|[k v] a IH]; cbn; [reflexivity|].
  destruct (eqb name k); [reflexivity|exact IH].
Qed.




(** ** The issues of the schema, field by field *)

(** The fields at which the schema reports an issue are the fields whose
    own value breaks its rule, listed in the order of the schema. *)
Lemma issues_field_by_field (P : Platform) (d : FormData) :
  map fst (formSchema P d)
  = filter (fun f => negb (field_rule P f (value_of f d)))
      [FirstName; LastName; Email; Phone; Address].
Proof.
  unfold formSchema, min_length, email_check. cbn [filter field_rule value_of].
  destruct (Nat.ltb_spec (length (firstName d)) 2) as [H1|H1];
    [rewrite (proj2 (Nat.leb_gt 2 _) H1)|rewrite (proj2 (Nat.leb_le 2 _) H1)];
  destruct (Nat.ltb_spec (length (lastName d)) 2) as [H2|H2];
    [rewrite (proj2 (Nat.leb_gt 2 _) H2)|rewrite (proj2 (Nat.leb_le 2 _) H2)
    |rewrite (proj2 (Nat.leb_gt 2 _) H2)|rewrite (proj2 (Nat.leb_le 2 _) H2)];
  destruct (email_format P (email d));
  destruct (Nat.ltb_spec (length (phone d)) 10) as [H4|H4];
  try rewrite (proj2 (Nat.leb_gt 10 _) H4);
  try rewrite (proj2 (Nat.leb_le 10 _) H4);
  destruct (Nat.ltb_spec (length (address d)) 5) as [H5|H5];
  try rewrite (proj2 (Nat.leb_gt 5 _) H5);
  try rewrite (proj2 (Nat.leb_le 5 _) H5);
  reflexivity.
Qed.

Lemma value_of_set_field (f g : Field) (v : jsstring) (d : FormData) :
  value_of g (set_field f v d) = if field_eqb f g then v else value_of g d.
Proof. destruct f, g; reflexivity. Qed.

Lemma issue_at_iff (P : Platform) (d : FormData) (g : Field) :
  In g (map fst (formSchema P d)) <-> field_rule P g (value_of g d) = false.
Proof.
  rewrite issues_field_by_field, filter_In, negb_true_iff. split.
  - intros [_ H]. exact H.
  - intros H. split; [|exact H]. destruct g; cbn; auto 10.
Qed.

(** X9. There is no cross-field validation.  After a field is given a new
    value, that field has an issue exactly when the new value breaks the
    rule of the field, and every other field has an issue exactly when it
    had one before. *)
Theorem no_cross_field_validation (P : Platform) (d : FormData) (f g : Field)
  (v : jsstring) :
  (In f (map fst (formSchema P (set_field f v d)))
   <-> field_rule P f v = false)
  /\ (g <> f ->
      (In g (map fst (formSchema P (set_field f v d)))
       <-> In g (map fst (formSchema P d)))).
Proof.
  split.
  - rewrite issue_at_iff, value_of_set_field.
    destruct f; reflexivity.
  - intros Hgf. repeat rewrite issue_at_iff. rewrite value_of_set_field.
    destruct f, g; try reflexivity; congruence.
Qed.

Lemma no_cross_field_validation_witness :
  In Phone (map fst (formSchema example_platform
                       (set_field Phone (js "12345") example_record)))
  /\ ~ In Address (map fst (formSchema example_platform
                              (set_field Phone (js "12345") example_record))).
Proof.
  destruct (no_cross_field_validation example_platform example_record
              Phone Address (js "12345")) as [Hown Hother].
  split.
  - apply Hown. reflexivity.
  - intros Hin. apply Hother in Hin; [|discriminate].
    vm_compute in Hin. exact Hin.
Defined.

(** ** The screens and the flags *)

Section Flags.

Variable P : Platform.
Variable props : Props.

(** The client flag, a valid token and the pre-filled flag, once set, stay
    set. *)
Lemma handler_flags (e : Event) (s : ComponentState) :
  let s' := state_after (handler P props e) s in
  (isClient s = true -> isClient s' = true)
  /\ (isTokenValid s = Some true -> isTokenValid s' = Some true)
  /\ (isEmailPreFilled s = true -> isEmailPreFilled s' = true).
Proof.
  cbv zeta. destruct e as [ | | |f v|c| |net]; cbn [handler].
  - cbn. auto.
  - unfold state_after, effect_email. run.
    destruct (isClient s && truthy (clientEmail props)); cbn; auto.
  - unfold state_after, effect_token. run.
    destruct (negb (isClient s)); cbn; auto.
  - cbn. auto.
  - unfold state_after.
    destruct (handleFileChange_run c s) as [log [Hrun _]]. rewrite Hrun.
    cbn [fst snd]. destruct c as [f|]; [destruct (acceptable f)|]; cbn; auto.
  - unfold state_after, handleRemoveFile. run.
    destruct (selectedFile s); cbn; auto.
  - destruct (handleSubmit_state P props net s) as [H|[H|H]];
      rewrite H; cbn; auto.
Qed.

Lemma run_events_flags (es : list Event) (s : ComponentState) :
  (isClient s = true -> isClient (run_events P props es s) = true)
  /\ (isTokenValid s = Some true ->
      isTokenValid (run_events P props es s) = Some true).
Proof.
  revert s. induction es as [|e es IH]; intros s; cbn; [auto|].
  destruct (handler_flags e s) as [Hc [Ht _]].
  destruct (IH (state_after (handler P props e) s)) as [IHc IHt].
  split; auto.
Qed.

Lemma run_events_app (es es' : list Event) (s : ComponentState) :
  run_events P props (es ++ es') s
  = run_events P props es' (run_events P props es s).
Proof. unfold run_events. apply fold_left_app. Qed.

Lemma run_events_cons (e : Event) (es : list Event) (s : ComponentState) :
  run_events P props (e :: es) s
  = run_events P props es (state_after (handler P props e) s).
Proof. reflexivity. Qed.

Lemma screen_with_valid_token (s : ComponentState) :
  isTokenValid s = Some true -> screen props s = FormScreen.
Proof.
  intros H. unfold screen. rewrite H. repeat rewrite andb_false_r.
  reflexivity.
Qed.

End Flags.

(** X10. The screen that reports an invalid link is never shown in a
    reachable state.  And whatever happens before, in between and after:
    once the client effect and later the token effect have run, the form
    screen is shown, for every token. *)
Theorem form_screen_after_mount (P : Platform) (props : Props)
  (s : ComponentState) (before between after : list Event) :
  (reachable P props s -> screen props s <> InvalidLinkScreen)
  /\ screen props
       (run_events P props
          (before ++ ClientEffect :: between ++ TokenEffect :: after) s)
     = FormScreen.
Proof.
  split.
  - intros Hr. destruct (reachable_invariant P props s Hr) as [_ [Ht _]].
    unfold screen.
    destruct (isClient s && truthy (token props)
              && match isTokenValid s with None => true | _ => false end);
      [discriminate|].
    destruct (isTokenValid s) as [[|]|];
      try congruence; repeat rewrite andb_false_r; discriminate.
  - apply screen_with_valid_token.
    rewrite run_events_app, run_events_cons, run_events_app,
      run_events_cons.
    apply run_events_flags.
    set (s1 := state_after (handler P props ClientEffect)
                 (run_events P props before s)).
    assert (Hc : isClient (run_events P props between s1) = true).
    { apply run_events_flags. reflexivity. }
    unfold state_after. cbn [handler]. unfold effect_token. run.
    rewrite Hc. reflexivity.
Qed.

Lemma form_screen_after_mount_witness :
  screen (destructure example_page) example_state <> InvalidLinkScreen
  /\ screen (destructure example_page)
       (run_events example_platform (destructure example_page)
          ([] ++ ClientEffect :: [EmailEffect] ++ TokenEffect :: [])
          initial_state)
     = FormScreen.
Proof.
  destruct (form_screen_after_mount example_platform
              (destructure example_page) example_state [] [] [])
    as [Hnever _].
  split.
  - apply Hnever. exact example_state_reachable.
  - apply (form_screen_after_mount example_platform
             (destructure example_page) initial_state [] [EmailEffect] []).
Defined.

(** ** The pre-filled e-mail *)

Section Prefill.

Variable P : Platform.
Variable props : Props.


End Prefill.





(** ** The icon of a file *)

Lemma split_nonempty (sep : code_unit) (s : jsstring) : split sep s <> [].
Proof.
  induction s as [|c s IH]; cbn; [discriminate|].
  destruct (c =? sep)%N; [discriminate|].
  destruct (split sep s); [contradiction|discriminate].
Qed.

(** Splitting at a separator splits the text before it and the text after
    it. *)
Lemma split_app (sep : code_unit) (a b : jsstring) :
  split sep (a ++ sep :: b) = split sep a ++ split sep b.
Proof.
  induction a as [|c a IH]; cbn.
  - rewrite N.eqb_refl. reflexivity.
  - destruct (c =? sep)%N; rewrite IH; [reflexivity|].
    pose proof (split_nonempty sep a) as Hne.
    destruct (split sep a); [contradiction|reflexivity].
Qed.

Lemma split_without_separator (sep : code_unit) (s : jsstring) :
  ~ In sep s -> split sep s = [s].
Proof.
  induction s as [|c s IH]; intros Hnot; cbn; [reflexivity|].
  destruct (N.eqb_spec c sep) as [->|Hc].
  - exfalso. apply Hnot. left. reflexivity.
  - rewrite IH; [reflexivity|]. intros Hin. apply Hnot. right. exact Hin.
Qed.

Lemma pop_app {A : Type} (l : list A) (x : A) : pop (l ++ [x]) = Some x.
Proof.
  induction l as [|y l IH]; [reflexivity|].
  cbn [app pop]. rewrite IH. destruct (l ++ [x]) eqn:E; [|reflexivity].
  destruct l; discriminate E.
Qed.

(** X12. The icon of a file depends only on what follows the last dot of
    its name; a name without a dot counts as its own extension (a file
    named "pdf" gets the icon of a PDF). *)
Theorem icon_by_last_extension (toLowerCase : jsstring -> jsstring)
  (stem extension : jsstring) :
  ~ In 46%N extension ->
  getFileIcon toLowerCase (stem ++ 46%N :: extension)
  = getFileIcon toLowerCase extension.
Proof.
  intros Hnot. unfold getFileIcon.
  rewrite split_app, (split_without_separator 46%N extension Hnot).
  rewrite pop_app. reflexivity.
Qed.

Lemma icon_by_last_extension_witness :
  getFileIcon (map ascii_lower) (js "report.final.pdf") = RedDocument
  /\ getFileIcon (map ascii_lower) (js "pdf") = RedDocument.
Proof.
  split; [|reflexivity].
  change (js "report.final.pdf") with (js "report.final" ++ 46%N :: js "pdf").
  rewrite (icon_by_last_extension (map ascii_lower) (js "report.final")
             (js "pdf")).
  - reflexivity.
  - cbn. intros [H|[H|[H|[]]]]; discriminate H.
Defined.

Lemma split_map (f : code_unit -> code_unit) (sep : code_unit)
  (s : jsstring) :
  (forall c, (f c =? sep)%N = (c =? sep)%N) ->
  split sep (map f s) = map (map f) (split sep s).
Proof.
  intros Hf. induction s as [|c s IH]; cbn; [reflexivity|].
  rewrite Hf, IH. destruct (c =? sep)%N; [reflexivity|].
  destruct (split sep s); reflexivity.
Qed.

Lemma pop_map {A B : Type} (g : A -> B) (l : list A) :
  pop (map g l) = option_map g (pop l).
Proof.
  induction l as [|x l IH]; [reflexivity|].
  cbn [map pop]. rewrite IH. destruct l; reflexivity.
Qed.

Lemma pop_In {A : Type} (l : list A) (x : A) : pop l = Some x -> In x l.
Proof.
  induction l as [|y l IH]; [discriminate|].
  cbn [pop]. destruct l as [|z l].
  - intros H. injection H as ->. left. reflexivity.
  - intros H. right. apply IH. exact H.
Qed.

Lemma split_is_ascii (sep : code_unit) (s segment : jsstring) :
  is_ascii s = true -> In segment (split sep s) -> is_ascii segment = true.
Proof.
  revert segment. induction s as [|c s IH]; intros segment Hs Hin.
  - cbn in Hin. destruct Hin as [<-|[]]. reflexivity.
  - cbn in Hs. apply andb_true_iff in Hs. destruct Hs as [Hc Hs].
    cbn in Hin. destruct (c =? sep)%N.
    + destruct Hin as [<-|Hin]; [reflexivity|]. apply IH; assumption.
    + destruct (split sep s) as [|first others] eqn:E.
      * destruct Hin as [<-|[]]. cbn. rewrite Hc. reflexivity.
      * destruct Hin as [<-|Hin].
        -- cbn. rewrite Hc. apply IH; [exact Hs|left; reflexivity].
        -- apply IH; [exact Hs|right; exact Hin].
Qed.

Lemma ascii_upper_dot (c : code_unit) :
  (ascii_upper c =? 46)%N = (c =? 46)%N.
Proof.
  unfold ascii_upper.
  destruct ((97 <=? c) && (c <=? 122))%N eqn:E; [|reflexivity].
  apply andb_true_iff in E. destruct E as [E1 E2].
  apply N.leb_le in E1. apply N.leb_le in E2.
  destruct (N.eqb_spec (c - 32) 46), (N.eqb_spec c 46); try reflexivity; lia.
Qed.

Lemma ascii_lower_upper (c : code_unit) :
  ascii_lower (ascii_upper c) = ascii_lower c.
Proof.
  unfold ascii_upper.
  destruct ((97 <=? c) && (c <=? 122))%N eqn:E; [|reflexivity].
  apply andb_true_iff in E. destruct E as [E1 E2].
  apply N.leb_le in E1. apply N.leb_le in E2.
  unfold ascii_lower.
  replace ((65 <=? c - 32) && (c - 32 <=? 90))%N with true
    by (symmetry; apply andb_true_iff; split; apply N.leb_le; lia).
  replace ((65 <=? c) && (c <=? 90))%N with false
    by (symmetry; apply andb_false_iff; right; apply N.leb_gt; lia).
  lia.
Qed.

Lemma is_ascii_upper (s : jsstring) :
  is_ascii s = true -> is_ascii (map ascii_upper s) = true.
Proof.
  unfold is_ascii. induction s as [|c s IH]; cbn; [reflexivity|].
  intros H. apply andb_true_iff in H. destruct H as [Hc Hs].
  rewrite (IH Hs), andb_true_r. apply N.ltb_lt in Hc. apply N.ltb_lt.
  unfold ascii_upper. destruct ((97 <=? c) && (c <=? 122))%N; lia.
Qed.

(** X13. For a file name of ASCII characters the icon does not depend on
    the case of the letters: the name in capitals gets the icon of the
    name as it is. *)
Theorem icon_ignores_case (toLowerCase : jsstring -> jsstring)
  (fileName : jsstring) :
  lowers_ascii toLowerCase ->
  is_ascii fileName = true ->
  getFileIcon toLowerCase (map ascii_upper fileName)
  = getFileIcon toLowerCase fileName.
Proof.
  intros Hlow Hascii.
  assert (Hsame : forall e : jsstring,
             is_ascii e = true ->
             toLowerCase (map ascii_upper e) = toLowerCase e).
  { intros e He.
    rewrite (Hlow (map ascii_upper e) (is_ascii_upper e He)), (Hlow e He).
    rewrite map_map. apply map_ext. exact ascii_lower_upper. }
  assert (Hlast : forall e : jsstring,
             pop (split 46%N fileName) = Some e -> is_ascii e = true).
  { intros e Hpop. apply (split_is_ascii 46%N fileName e Hascii).
    apply pop_In. exact Hpop. }
  unfold getFileIcon.
  rewrite (split_map ascii_upper 46%N fileName ascii_upper_dot), pop_map.
  assert (Hext : option_map toLowerCase
                   (option_map (map ascii_upper) (pop (split 46%N fileName)))
                 = option_map toLowerCase (pop (split 46%N fileName))).
  { destruct (pop (split 46%N fileName)) as [e|]; [|reflexivity].
    cbn [option_map]. rewrite (Hsame e (Hlast e eq_refl)). reflexivity. }
  exact (f_equal
           (fun extension =>
              match extension with
              | Some e =>
                  if eqb e (js "pdf") then RedDocument
                  else if eqb e (js "doc") || eqb e (js "docx")
                  then BlueDocument
                  else if eqb e (js "jpg") || eqb e (js "jpeg")
                          || eqb e (js "png")
                  then GreenPicture
                  else GrayDocument
              | None => GrayDocument
              end) Hext).
Qed.

Lemma icon_ignores_case_witness :
  getFileIcon (map ascii_lower) (js "SCAN.JPEG")
  = getFileIcon (map ascii_lower) (js "scan.jpeg").
Proof.
  apply (icon_ignores_case (map ascii_lower) (js "scan.jpeg")).
  - intros s _. reflexivity.
  - reflexivity.
Defined.

(** ** Decoding the [missingFields] field *)

Lemma hex_value_digit (k : N) :
  (k < 16)%N -> hex_value (hex_digit k) = Some k.
Proof.
  intros Hk. destruct k as [|p]; [reflexivity|].
  do 4 (destruct p as [p|p|]; try reflexivity); lia.
Qed.

Lemma hex_digits_value (c : N) :
  (c < 65536)%N ->
  (c / 4096 mod 16 * 4096 + c / 256 mod 16 * 256 + c / 16 mod 16 * 16
   + c mod 16)%N = c.
Proof.
  intros Hc.
  replace (c / 4096)%N with (c / 16 / 16 / 16)%N
    by (repeat rewrite N.Div0.div_div; reflexivity).
  replace (c / 256)%N with (c / 16 / 16)%N
    by (rewrite N.Div0.div_div; reflexivity).
  assert (H16 : (16 <> 0)%N) by discriminate.
  pose proof (N.div_mod c 16 H16) as H0.
  pose proof (N.div_mod (c / 16) 16 H16) as H1.
  pose proof (N.div_mod (c / 16 / 16) 16 H16) as H2.
  assert (H3 : (c / 16 / 16 / 16 < 16)%N).
  { repeat (apply N.Div0.div_lt_upper_bound). exact Hc. }
  rewrite (N.mod_small _ _ H3). lia.
Qed.

(** The lexer reads a [\u] escape of four hexadecimal digits as one code
    unit. *)
Lemma lex_unicode (acc : jsstring) (toks : list Json.token) (tail : jsstring)
  (c : N) :
  (c < 65536)%N ->
  lex (LString acc) toks (unicode_escape c ++ tail)
  = lex (LString (c :: acc)) toks tail.
Proof.
  intros Hc. unfold unicode_escape. cbn [app lex].
  change (92 =? 34)%N with false. change (92 =? 92)%N with true.
  change (117 =? 117)%N with true. cbn iota.
  assert (Hlt : forall x : N, (x mod 16 < 16)%N)
    by (intros x; apply N.mod_lt; discriminate).
  rewrite (hex_value_digit _ (Hlt _)). cbn [app].
  rewrite (hex_value_digit _ (Hlt _)). cbn [app].
  rewrite (hex_value_digit _ (Hlt _)). cbn [app].
  rewrite (hex_value_digit _ (Hlt _)).
  rewrite (hex_digits_value c Hc). reflexivity.
Qed.

(** The lexer reads what [JSON.stringify] writes for one code unit of a
    string as that code unit. *)
Lemma lex_quote_unit (acc : jsstring) (toks : list Json.token) (tail : jsstring)
  (c : N) :
  lex (LString acc) toks (quote_unit c ++ tail)
  = lex (LString (c :: acc)) toks tail.
Proof.
  unfold quote_unit.
  destruct (N.eqb_spec c 8) as [->|H8]; [reflexivity|].
  destruct (N.eqb_spec c 9) as [->|H9]; [reflexivity|].
  destruct (N.eqb_spec c 10) as [->|H10]; [reflexivity|].
  destruct (N.eqb_spec c 12) as [->|H12]; [reflexivity|].
  destruct (N.eqb_spec c 13) as [->|H13]; [reflexivity|].
  destruct (N.eqb_spec c 34) as [->|H34]; [reflexivity|].
  destruct (N.eqb_spec c 92) as [->|H92]; [reflexivity|].
  destruct (N.ltb_spec c 32) as [H32|H32].
  { apply lex_unicode. lia. }
  destruct (is_high_surrogate c || is_low_surrogate c) eqn:Hsur.
  { apply lex_unicode. unfold is_high_surrogate, is_low_surrogate in Hsur.
    apply orb_true_iff in Hsur.
    destruct Hsur as [H|H]; apply andb_true_iff in H; destruct H as [_ H];
      apply N.leb_le in H; lia. }
  cbn [app lex].
  rewrite (proj2 (N.eqb_neq c 34) H34), (proj2 (N.eqb_neq c 92) H92).
  rewrite (proj2 (N.ltb_ge c 32) H32). reflexivity.
Qed.

Lemma lex_surrogate (acc : jsstring) (toks : list Json.token) (tail : jsstring)
  (c : N) :
  is_high_surrogate c || is_low_surrogate c = true ->
  lex (LString acc) toks (c :: tail) = lex (LString (c :: acc)) toks tail.
Proof.
  intros Hsur. unfold is_high_surrogate, is_low_surrogate in Hsur.
  assert (Hc : (55296 <= c)%N).
  { apply orb_true_iff in Hsur.
    destruct Hsur as [H|H]; apply andb_true_iff in H; destruct H as [H _];
      apply N.leb_le in H; lia. }
  cbn [lex].
  rewrite (proj2 (N.eqb_neq c 34)) by lia.
  rewrite (proj2 (N.eqb_neq c 92)) by lia.
  rewrite (proj2 (N.ltb_ge c 32)) by lia. reflexivity.
Qed.

(** The lexer reads the quoted form of a string back as the string. *)
Lemma lex_quote_units (n : nat) (s : jsstring) :
  List.length s <= n ->
  forall (acc : jsstring) (toks : list Json.token) (tail : jsstring),
    lex (LString acc) toks (quote_units s ++ 34%N :: tail)
    = lex LDefault (TString (rev acc ++ s) :: toks) tail.
Proof.
  revert s. induction n as [|n IH]; intros s Hlen acc toks tail.
  - destruct s; [|cbn in Hlen; lia]. cbn [quote_units app lex].
    rewrite app_nil_r. reflexivity.
  - destruct s as [|c rest].
    + cbn [quote_units app lex]. rewrite app_nil_r. reflexivity.
    + cbn [quote_units]. cbn in Hlen. destruct rest as [|d rest'].
      * rewrite lex_quote_unit. cbn [lex rev]. reflexivity.
      * destruct (is_high_surrogate c && is_low_surrogate d) eqn:Hpair.
        -- apply andb_true_iff in Hpair. destruct Hpair as [Hc Hd].
           cbn [app].
           rewrite lex_surrogate by (rewrite Hc; reflexivity).
           rewrite lex_surrogate by (rewrite Hd; apply orb_true_r).
           rewrite (IH rest' ltac:(cbn in Hlen; lia)). cbn [rev].
           repeat rewrite <- app_assoc. reflexivity.
        -- rewrite <- app_assoc. rewrite lex_quote_unit.
           rewrite (IH (d :: rest') ltac:(cbn in *; lia)). cbn [rev].
           rewrite <- app_assoc. reflexivity.
Qed.

Lemma lex_quote (s : jsstring) (toks : list Json.token) (tail : jsstring) :
  lex LDefault toks (quote s ++ tail) = lex LDefault (TString s :: toks) tail.
Proof.
  unfold quote. cbn [app lex]. change (lex_start 34) with
    (Some (@None Json.token, LString [])).
  cbn iota. cbn [push_token]. rewrite <- app_assoc. cbn [app].
  apply (lex_quote_units (List.length s) s (le_n _) [] toks tail).
Qed.

Lemma join_cons (sep p : jsstring) (ps : list jsstring) :
  join sep (p :: ps) = p ++ flat_map (fun q => sep ++ q) ps.
Proof.
  revert p. induction ps as [|q ps IH]; intros p.
  - cbn. rewrite app_nil_r. reflexivity.
  - change (join sep (p :: q :: ps)) with (p ++ sep ++ join sep (q :: ps)).
    rewrite IH. cbn [flat_map]. rewrite <- app_assoc. reflexivity.
Qed.

Lemma lex_more_strings (l : list jsstring) (toks : list Json.token)
  (tail : jsstring) :
  lex LDefault toks (flat_map (fun q => js "," ++ q) (map quote l) ++ tail)
  = lex LDefault
      (rev (flat_map (fun y => [TComma; TString y]) l) ++ toks) tail.
Proof.
  revert toks. induction l as [|y l IH]; intros toks; [reflexivity|].
  cbn [map flat_map]. repeat rewrite <- app_assoc.
  change (js "," ++ quote y ++ flat_map (fun q => js "," ++ q) (map quote l)
          ++ tail)
    with (44%N :: (quote y ++ flat_map (fun q => js "," ++ q) (map quote l)
                   ++ tail)).
  cbn [lex]. change (lex_start 44) with (Some (Some TComma, LDefault)).
  cbn iota. cbn [push_token]. rewrite lex_quote, IH.
  cbn [app rev]. repeat rewrite <- app_assoc. reflexivity.
Qed.

(** The tokens of the JSON text of an array of strings. *)
Lemma tokens_of_string_array (P : Platform) (x : jsstring)
  (l : list jsstring) :
  tokens (stringify P (JArray (map JString (x :: l))))
  = Some (TLBracket :: TString x
          :: flat_map (fun y => [TComma; TString y]) l ++ [TRBracket]).
Proof.
  unfold tokens. cbn [stringify]. rewrite map_map.
  change (map (fun s => stringify P (JString s)) (x :: l))
    with (map quote (x :: l)).
  cbn [map]. rewrite join_cons.
  change (js "[" ++ (quote x ++ flat_map (fun q => js "," ++ q) (map quote l))
          ++ js "]")
    with (91%N :: ((quote x ++ flat_map (fun q => js "," ++ q) (map quote l))
                   ++ [93%N])).
  cbn [lex]. change (lex_start 91) with (Some (Some TLBracket, LDefault)).
  cbn iota. cbn [push_token]. rewrite <- app_assoc.
  rewrite lex_quote, lex_more_strings. cbn [lex].
  change (lex_start 93) with (Some (Some TRBracket, LDefault)).
  cbn iota. cbn [push_token]. cbn [rev].
  rewrite rev_app_distr, rev_involutive. reflexivity.
Qed.

Lemma parse_more_strings (l : list jsstring) (items : list json) :
  parse_tokens ECommaOrClose [FArray items]
    (flat_map (fun y => [TComma; TString y]) l ++ [TRBracket])
  = Some (JArray (rev items ++ map JString l)).
Proof.
  revert items. induction l as [|y l IH]; intros items.
  - cbn. rewrite app_nil_r. reflexivity.
  - cbn [flat_map app parse_tokens parse_step supply]. rewrite IH.
    cbn [rev map]. rewrite <- app_assoc. reflexivity.
Qed.

(** [JSON.parse] reads the [JSON.stringify] text of a list of strings back
    as that list. *)
Lemma parse_stringify_strings (P : Platform) (l : list jsstring) :
  parse (stringify P (JArray (map JString l)))
  = Some (JArray (map JString l)).
Proof.
  destruct l as [|x l]; [reflexivity|].
  unfold parse. rewrite tokens_of_string_array.
  cbn [parse_tokens parse_step supply]. rewrite parse_more_strings.
  reflexivity.
Qed.

(** X14. When the list of missing fields is not empty, the payload has a
    [missingFields] field whose text [JSON.parse] decodes to exactly that
    list of strings, whatever characters the names contain (quotes,
    backslashes, control characters, surrogates). *)
Theorem missingFields_decodes (P : Platform) (props : Props) (d : FormData)
  (file : option File) :
  missingFields props <> [] ->
  exists text,
    field_value (js "missingFields") (build_formData P props d file)
    = Some (Text text)
    /\ parse text = Some (JArray (map JString (missingFields props))).
Proof.
  intros Hne. apply nonempty_iff in Hne.
  exists (stringify P (JArray (map JString (missingFields props)))).
  split; [|apply parse_stringify_strings].
  unfold build_formData. repeat rewrite field_value_app. rewrite Hne.
  destruct (truthy (token props)); reflexivity.
Qed.

Lemma missingFields_decodes_witness :
  exists text,
    field_value (js "missingFields")
      (build_formData example_platform (destructure example_page)
         example_record None)
    = Some (Text text)
    /\ parse text
       = Some (JArray [JString (js "firstName"); JString (js "lastName");
                       JString (js "phone"); JString (js "address")]).
Proof.
  apply (missingFields_decodes example_platform (destructure example_page)
           example_record None).
  discriminate.
Defined.

(** ** A quoted text as error body *)

(** X15. The stripping of wrapping quotes does not unwrap a quoted plain
    text: when the body of a failed response is a text in double quotes
    and the text inside is not JSON, the error shown is the raw body,
    quotes included (subject to the two marker texts). *)
Theorem quoted_text_keeps_quotes (P : Platform) (props : Props)
  (s : ComponentState) (data : FormData) (net : Network) (r : Response)
  (inner : jsstring) :
  token_rejected props s = false ->
  timer_fires 30000 net = false ->
  settlement net = Resolves r ->
  ok r = false ->
  body r = Readable ([34%N] ++ inner ++ [34%N]) ->
  parse inner = None ->
  surfaced_errors (effects_of (onSubmit P props data net) s)
  = [shown_for ([34%N] ++ inner ++ [34%N])].
Proof.
  intros Hg Ht Hs Hok Hb Hp.
  assert (Hraw : read_error_message P r (setIsSubmitting true s)
                 = (Normal (JString ([34%N] ++ inner ++ [34%N])),
                    setIsSubmitting true s, [])).
  { apply (read_error_raw P r _ _ Hb); [discriminate|].
    left. rewrite strip_wrapped. exact Hp. }
  rewrite (server_error_surfaced P props data net s r _ Hg Ht Hs Hok Hraw).
  reflexivity.
Qed.

Lemma quoted_text_keeps_quotes_witness :
  surfaced_errors
    (effects_of
       (onSubmit example_platform (destructure example_page) example_record
          (responds 404 ([34%N] ++ js "Not found" ++ [34%N])))
       example_state)
  = [[34%N] ++ js "Not found" ++ [34%N]].
Proof.
  apply (quoted_text_keeps_quotes example_platform
           (destructure example_page) example_state example_record
           (responds 404 ([34%N] ++ js "Not found" ++ [34%N]))
           {| status := 404;
              body := Readable ([34%N] ++ js "Not found" ++ [34%N]) |}
           (js "Not found"));
    reflexivity.
Defined.

(** ** When the e-mail is marked as pre-filled *)

Section PrefillFlag.

Variable P : Platform.
Variable props : Props.

Lemma run_events_prefilled (es : list Event) (s : ComponentState) :
  isEmailPreFilled s = true ->
  isEmailPreFilled (run_events P props es s) = true.
Proof.
  revert s. induction es as [|e es IH]; intros s Hs; cbn; [exact Hs|].
  apply IH. apply (handler_flags P props e s). exact Hs.
Qed.

Lemma prefilled_needs_email (s : ComponentState) :
  reachable P props s ->
  isEmailPreFilled s = true -> clientEmail props <> [].
Proof.
  induction 1 as [|s e Hr IH]; [discriminate|].
  destruct e as [ | | |f v|c| |net]; cbn [handler].
  - exact IH.
  - unfold state_after, effect_email. run.
    destruct (isClient s && truthy (clientEmail props)) eqn:Hc; cbn;
      [|exact IH].
    intros _. apply andb_true_iff in Hc. apply truthy_iff. apply Hc.
  - unfold state_after, effect_token. run.
    destruct (negb (isClient s)); cbn; exact IH.
  - exact IH.
  - unfold state_after.
    destruct (handleFileChange_run c s) as [log [Hrun _]]. rewrite Hrun.
    cbn [fst snd]. destruct c as [f|]; [destruct (acceptable f)|];
      cbn; exact IH.
  - unfold state_after, handleRemoveFile. run.
    destruct (selectedFile s); cbn; exact IH.
  - destruct (handleSubmit_state P props net s) as [H|[H|H]]; rewrite H;
      cbn; exact IH.
Qed.

End PrefillFlag.

(** X16. The e-mail is marked as pre-filled only when the properties
    supply a non-empty e-mail; and when they do, the mark is set for good
    once the client effect and later the e-mail effect have run, whatever
    happens before, in between and after. *)
Theorem prefilled_exactly_with_email (P : Platform) (props : Props)
  (s : ComponentState) (before between after : list Event) :
  (reachable P props s ->
   isEmailPreFilled s = true -> clientEmail props <> [])
  /\ (clientEmail props <> [] ->
      isEmailPreFilled
        (run_events P props
           (before ++ ClientEffect :: between ++ EmailEffect :: after) s)
      = true).
Proof.
  split; [apply prefilled_needs_email|].
  intros Hne. apply truthy_iff in Hne.
  rewrite run_events_app, run_events_cons, run_events_app, run_events_cons.
  apply run_events_prefilled.
  set (s1 := state_after (handler P props ClientEffect)
               (run_events P props before s)).
  assert (Hc : isClient (run_events P props between s1) = true).
  { apply run_events_flags. reflexivity. }
  unfold state_after. cbn [handler]. unfold effect_email. run.
  rewrite Hc, Hne. reflexivity.
Qed.

Lemma prefilled_exactly_with_email_witness :
  clientEmail (destructure example_page) <> []
  /\ isEmailPreFilled
       (run_events example_platform (destructure example_page)
          ([] ++ ClientEffect :: [] ++ EmailEffect :: []) initial_state)
     = true.
Proof.
  destruct (prefilled_exactly_with_email example_platform
              (destructure example_page) example_state [] [] [])
    as [Honly _].
  destruct (prefilled_exactly_with_email example_platform
              (destructure example_page) initial_state [] [] [])
    as [_ Hset].
  split.
  - apply Honly; [exact example_state_reachable|reflexivity].
  - apply Hset. discriminate.
Defined.
